(** * github_org_stats: repository and star counts per GitHub account

    A shallow embedding of [src/github_org_stats.py] and the properties of
    its paged fetcher, its aggregation by display name and its report.

    - Python [str] is a sequence of Unicode code points: [list N].
    - Python [int] is unbounded: [Z].
    - [requests.get] is a call to a server given as a function from requests
      to responses (the mocked data of a test); every call is recorded.
    - [print], [parser.error] and [sys.exit] are recorded in the same trace,
      so that the order of requests and diagnostics can be stated.
    - [while True] is a loop with a budget of requests. *)

From Stdlib Require Import ZArith String Ascii.
From stdpp Require Import base tactics option list sorting pretty gmap.

Local Open Scope Z_scope.

(** ** Text *)

Abbreviation str := (list N).

(** The code points of an ASCII literal. *)
Definition u (s : string) : str := N_of_ascii <$> list_ascii_of_string s.

(** Truth value of an optional string ([if github_token:], [if args.file:]):
    [None] and [''] are false. *)
Definition truthy (s : option str) : option str :=
  match s with
  | Some (c :: t) => Some (c :: t)
  | Some [] | None => None
  end.

Definition TAB : N := 9%N.
Definition LF : N := 10%N.
Definition CR : N := 13%N.

(** ** The HTTP interface *)

(** [params = {'page': page, 'per_page': per_page, 'type': 'all'}] *)
Record Params := { page : Z; per_page : Z; type : str }.

Record Request := {
  url : str;
  headers : list (str * str);
  params : Params
}.

(** One element of the listing; the program reads [repo['stargazers_count']]
    and nothing else. *)
Record Repo := { stargazers_count : Z }.

Record Response := { status_code : Z; json : list Repo }.

Definition Server := Request → Response.

(** ** Effects *)

(** The lines the program writes, one constructor per [print] of the source. *)
Inductive line :=
  | LErrorFetching (name : str) (status : Z)
      (* f"Error fetching data for {name}: {status}" *)
  | LUserNotFound (name : str)
      (* f"User '{user_name}' not found" *)
  | LFileNotFound (filename : str)
      (* f"Error: File '{filename}' not found" *)
  | LNoOrganizations
      (* "No organizations specified" *)
  | LHeader
      (* f"{'Organization':<20} {'Repositories':<15} {'Total Stars':<15}" *)
  | LRule
      (* "-" * 50 *)
  | LRow (display_name : str) (repos stars : Z)
      (* f"{display_name:<20} {stats['repos']:<15} {stats['stars']:<15}" *)
  | LTotal (total_repos total_stars : Z).
      (* f"{'TOTAL':<20} {total_repos:<15} {total_stars:<15}" *)

(** [f"{s:<width}"] *)
Definition ljust (width : nat) (s : str) : str :=
  s ++ replicate (width - length s) 32%N.

(** [str(n)] for an integer. *)
Definition str_of_int (n : Z) : str := u (pretty n).

(** The text of a line. *)
Definition render (l : line) : str :=
  match l with
  | LErrorFetching name status =>
    u "Error fetching data for " ++ name ++ u ": " ++ str_of_int status
  | LUserNotFound name => u "User '" ++ name ++ u "' not found"
  | LFileNotFound filename => u "Error: File '" ++ filename ++ u "' not found"
  | LNoOrganizations => u "No organizations specified"
  | LHeader =>
    ljust 20 (u "Organization") ++ u " " ++ ljust 15 (u "Repositories")
    ++ u " " ++ ljust 15 (u "Total Stars")
  | LRule => replicate 50 45%N
  | LRow display_name repos stars =>
    ljust 20 display_name ++ u " " ++ ljust 15 (str_of_int repos)
    ++ u " " ++ ljust 15 (str_of_int stars)
  | LTotal total_repos total_stars =>
    ljust 20 (u "TOTAL") ++ u " " ++ ljust 15 (str_of_int total_repos)
    ++ u " " ++ ljust 15 (str_of_int total_stars)
  end.

Inductive event :=
  | EvGet (r : Request)          (* requests.get(url, headers=, params=) *)
  | EvPrint (l : line)           (* print(...) *)
  | EvUsage (message : str).     (* parser.error(message), on stderr *)

(** How a computation ends: it returns, it leaves the process with a status
    ([sys.exit], [parser.error]), or its budget of requests is spent. *)
Inductive outcome (A : Type) :=
  | Ret (a : A)
  | Exit (code : Z)
  | Spent.
Arguments Ret {A} a.
Arguments Exit {A} code.
Arguments Spent {A}.

Definition M (A : Type) : Type := list event * outcome A.

Definition ret {A} (a : A) : M A := ([], Ret a).

Definition bind {A B} (m : M A) (k : A → M B) : M B :=
  match m with
  | (t, Ret a) => let '(t', o) := k a in (t ++ t', o)
  | (t, Exit c) => (t, Exit c)
  | (t, Spent) => (t, Spent)
  end.

Notation "'let*' x := m 'in' k" := (bind m (fun x => k))
  (at level 10, x name, m at level 100, k at level 200).
Notation "'do' m 'in' k" := (bind m (fun _ => k))
  (at level 10, m at level 100, k at level 200).

Definition emit (e : event) : M unit := ([e], Ret tt).
Definition print (l : line) : M unit := emit (EvPrint l).
Definition sys_exit {A} (code : Z) : M A := ([], Exit code).
Definition out_of_budget {A} : M A := ([], Spent).
(** [parser.error] writes the usage message and leaves with status 2. *)
Definition parser_error {A} (message : str) : M A := ([EvUsage message], Exit 2).
Definition requests_get (srv : Server) (r : Request) : M Response :=
  ([EvGet r], Ret (srv r)).

Definition trace {A} (m : M A) : list event := m.1.
Definition result {A} (m : M A) : outcome A := m.2.

(** ** The paged fetcher *)

Definition make_headers (github_token : option str) : list (str * str) :=
  let headers := [(u "Accept", u "application/vnd.github.v3+json")] in
  match truthy github_token with
  | Some t => headers ++ [(u "Authorization", u "token " ++ t)]
  | None => headers
  end.

Definition org_request (org_name : str) (github_token : option str) (page : Z)
  : Request :=
  {| url := u "https://api.github.com/orgs/" ++ org_name ++ u "/repos";
     headers := make_headers github_token;
     params := {| page := page; per_page := 100; type := u "all" |} |}.

Definition user_request (user_name : str) (github_token : option str) (page : Z)
  : Request :=
  {| url := u "https://api.github.com/users/" ++ user_name ++ u "/repos";
     headers := make_headers github_token;
     params := {| page := page; per_page := 100; type := u "all" |} |}.

(** [sum(repo['stargazers_count'] for repo in repos)] *)
Definition sum_stars (repos : list Repo) : Z :=
  foldl Z.add 0 (stargazers_count <$> repos).

(** [len(repos)] *)
Definition len {A} (l : list A) : Z := Z.of_nat (length l).

(** The loop of [get_user_stats]; [fuel] bounds the requests still allowed. *)
Fixpoint user_loop (fuel : nat) (srv : Server) (user_name : str)
    (github_token : option str) (page repo_count total_stars : Z)
  : M (Z * Z) :=
  match fuel with
  | O => out_of_budget
  | S fuel' =>
    let* response := requests_get srv (user_request user_name github_token page) in
    if status_code response =? 404 then
      do print (LUserNotFound user_name) in
      ret (0, 0)
    else if negb (status_code response =? 200) then
      do print (LErrorFetching user_name (status_code response)) in
      ret (0, 0)
    else
      let repos := json response in
      match repos with
      | [] => ret (repo_count, total_stars)
      | _ :: _ =>
        user_loop fuel' srv user_name github_token (page + 1)
          (repo_count + len repos) (total_stars + sum_stars repos)
      end
  end.

Definition get_user_stats (fuel : nat) (srv : Server) (user_name : str)
    (github_token : option str) : M (Z * Z) :=
  user_loop fuel srv user_name github_token 1 0 0.

(** The loop of [get_org_stats]; a 404 hands the rest of the budget to
    [get_user_stats]. *)
Fixpoint org_loop (fuel : nat) (srv : Server) (org_name : str)
    (github_token : option str) (page repo_count total_stars : Z)
  : M (Z * Z) :=
  match fuel with
  | O => out_of_budget
  | S fuel' =>
    let* response := requests_get srv (org_request org_name github_token page) in
    if status_code response =? 404 then
      get_user_stats fuel' srv org_name github_token
    else if negb (status_code response =? 200) then
      do print (LErrorFetching org_name (status_code response)) in
      ret (0, 0)
    else
      let repos := json response in
      match repos with
      | [] => ret (repo_count, total_stars)
      | _ :: _ =>
        org_loop fuel' srv org_name github_token (page + 1)
          (repo_count + len repos) (total_stars + sum_stars repos)
      end
  end.

Definition get_org_stats (fuel : nat) (srv : Server) (org_name : str)
    (github_token : option str) : M (Z * Z) :=
  org_loop fuel srv org_name github_token 1 0 0.

(** ** Reading the input file *)

(** [str.isspace] of one code point, the set [str.strip()] removes. *)
Definition isspace (c : N) : bool :=
  ((9 <=? c) && (c <=? 13) || (28 <=? c) && (c <=? 32)
   || (c =? 0x85) || (c =? 0xA0) || (c =? 0x1680)
   || (0x2000 <=? c) && (c <=? 0x200A)
   || (c =? 0x2028) || (c =? 0x2029) || (c =? 0x202F) || (c =? 0x205F)
   || (c =? 0x3000))%N.

Fixpoint lstrip (s : str) : str :=
  match s with
  | c :: s' => if isspace c then lstrip s' else s
  | [] => []
  end.

Definition rstrip (s : str) : str := reverse (lstrip (reverse s)).

(** [line.strip()] *)
Definition strip (s : str) : str := rstrip (lstrip s).

(** [s.split(sep)] for a separator of one character: never an empty list. *)
Fixpoint split (sep : N) (s : str) : list str :=
  match s with
  | [] => [[]]
  | c :: s' =>
    if (c =? sep)%N then [] :: split sep s'
    else match split sep s' with
         | w :: ws => (c :: w) :: ws
         | [] => [[c]]
         end
  end.

(** [sep.join(parts)] for a separator of one character. *)
Fixpoint join (sep : N) (parts : list str) : str :=
  match parts with
  | [] => []
  | [p] => p
  | p :: ps => p ++ sep :: join sep ps
  end.

(** What [open(filename, 'r')] does to line ends: a CR LF pair and a lone
    CR are read as LF. *)
Fixpoint universal_newlines (s : str) : str :=
  match s with
  | [] => []
  | c :: s' =>
    if (c =? CR)%N then
      match s' with
      | d :: s'' =>
        if (d =? LF)%N then LF :: universal_newlines s''
        else LF :: universal_newlines s'
      | [] => [LF]
      end
    else c :: universal_newlines s'
  end.

(** [for line in f]: every line keeps its LF; the last one may have none. *)
Fixpoint readlines (s : str) : list str :=
  match s with
  | [] => []
  | c :: s' =>
    if (c =? LF)%N then [LF] :: readlines s'
    else match readlines s' with
         | l :: ls => (c :: l) :: ls
         | [] => [[c]]
         end
  end.

(** The body of the loop over the lines: the pair appended to [orgs], if
    any. *)
Definition parse_line (line : str) : option (str * str) :=
  let line := strip line in
  match line with
  | [] => None
  | _ :: _ =>
    let parts := split TAB line in
    match parts with
    | p0 :: p1 :: _ => Some (p0, p1)      (* len(parts) >= 2 *)
    | [p0] => Some (p0, p0)
    | [] => None
    end
  end.

(** The files the program can open: the text of each one that exists. *)
Definition FileSystem := str → option str.

Definition read_orgs_from_file (fs : FileSystem) (filename : str)
  : M (list (str * str)) :=
  match fs filename with
  | Some text => ret (omap parse_line (readlines (universal_newlines text)))
  | None =>
    do print (LFileNotFound filename) in
    sys_exit 1
  end.

(** ** Aggregation by display name *)

(** [{'repos': r, 'stars': s}] *)
Record Stats := { repos : Z; stars : Z }.

(** [display_stats]: a dict keeps its keys in the order of their first
    insertion, and [sorted] is stable, so the order is part of the data. *)
Abbreviation Dict := (list (str * Stats)).

Fixpoint dict_get (d : Dict) (k : str) : option Stats :=
  match d with
  | [] => None
  | (k', v) :: d' => if decide (k' = k) then Some v else dict_get d' k
  end.

(** [d[k] = f(d[k])] for a key that is present. *)
Fixpoint dict_alter (f : Stats → Stats) (k : str) (d : Dict) : Dict :=
  match d with
  | [] => []
  | (k', v) :: d' =>
    if decide (k' = k) then (k', f v) :: d' else (k', v) :: dict_alter f k d'
  end.

(** [if k not in d: d[k] = {'repos': 0, 'stars': 0}] *)
Definition dict_setdefault (d : Dict) (k : str) : Dict :=
  match dict_get d k with
  | None => d ++ [(k, {| repos := 0; stars := 0 |})]
  | Some _ => d
  end.

Definition add_repos (n : Z) (s : Stats) : Stats :=
  {| repos := repos s + n; stars := stars s |}.
Definition add_stars (n : Z) (s : Stats) : Stats :=
  {| repos := repos s; stars := stars s + n |}.

(** The two [+=] of the loop body. *)
Definition dict_add (d : Dict) (k : str) (counts : Z * Z) : Dict :=
  dict_alter (add_stars counts.2) k (dict_alter (add_repos counts.1) k d).

(** [for org_name, display_name in org_data: ...] *)
Fixpoint main_loop (fuel : nat) (srv : Server) (token : option str)
    (org_data : list (str * str)) (display_stats : Dict) : M Dict :=
  match org_data with
  | [] => ret display_stats
  | (org_name, display_name) :: rest =>
    let display_stats := dict_setdefault display_stats display_name in
    let* counts := get_org_stats fuel srv org_name token in
    let display_stats := dict_add display_stats display_name counts in
    main_loop fuel srv token rest display_stats
  end.

(** The aggregator alone, over targets whose stats are already fetched. *)
Fixpoint aggregate (fetched : list (str * (Z * Z))) (display_stats : Dict)
  : Dict :=
  match fetched with
  | [] => display_stats
  | (display_name, counts) :: rest =>
    aggregate rest
      (dict_add (dict_setdefault display_stats display_name) display_name counts)
  end.

(** ** The report *)

(** [key=lambda x: (x[1]['stars'], x[1]['repos'])] *)
Definition sort_key (x : str * Stats) : Z * Z := (stars x.2, repos x.2).

(** [a < b] on pairs of integers *)
Definition tuple_lt (a b : Z * Z) : bool :=
  (a.1 <? b.1) || ((a.1 =? b.1) && (a.2 <? b.2)).

Fixpoint insert_reverse (x : str * Stats) (l : Dict) : Dict :=
  match l with
  | [] => [x]
  | y :: l' =>
    if tuple_lt (sort_key x) (sort_key y) then y :: insert_reverse x l'
    else x :: l
  end.

(** [sorted(items, key=sort_key, reverse=True)]: descending keys, and rows of
    equal keys stay in the order they had. *)
Definition sorted_reverse (items : Dict) : Dict := foldr insert_reverse [] items.

(** [for display_name, stats in sorted_stats: ...] *)
Fixpoint report_loop (sorted_stats : Dict) (total_repos total_stars : Z)
  : M (Z * Z) :=
  match sorted_stats with
  | [] => ret (total_repos, total_stars)
  | (display_name, stats) :: rest =>
    do print (LRow display_name (repos stats) (stars stats)) in
    report_loop rest (total_repos + repos stats) (total_stars + stars stats)
  end.

(** The reporter: from the sort to the last line. *)
Definition report (display_stats : Dict) : M unit :=
  let sorted_stats := sorted_reverse display_stats in
  do print LHeader in
  do print LRule in
  let* totals := report_loop sorted_stats 0 0 in
  do print LRule in
  print (LTotal totals.1 totals.2).

(** ** The command *)

(** The namespace [parser.parse_args()] returns. *)
Record Args := {
  organizations : list str;
  file : option str;
  token : option str
}.

(** The [if args.file: ... elif args.organizations: ... else: ...] of [main]:
    [(org_data, orgs)]. *)
Definition resolve_input (fs : FileSystem) (args : Args)
  : M (list (str * str) * list str) :=
  match truthy (file args) with
  | Some filename =>
    let* org_data := read_orgs_from_file fs filename in
    ret (org_data, org_data.*1)
  | None =>
    match organizations args with
    | _ :: _ =>
      ret ((λ org, (org, org)) <$> organizations args, organizations args)
    | [] => parser_error (u "Must specify either organization names or --file")
    end
  end.

(** [main()]; returning is the exit status 0. *)
Definition main (fuel : nat) (srv : Server) (fs : FileSystem) (args : Args)
  : M unit :=
  let* input := resolve_input fs args in
  let org_data := input.1 in
  let orgs := input.2 in
  match orgs with
  | [] =>
    do print LNoOrganizations in
    sys_exit 1
  | _ :: _ =>
    let* display_stats := main_loop fuel srv (token args) org_data [] in
    report display_stats
  end.

(** ** Vocabulary of the statements *)

(** A computation after the events [t]. *)
Definition prepend {A} (t : list event) (m : M A) : M A := (t ++ m.1, m.2).

(** The requests for [n] consecutive pages from page [first] on. *)
Definition page_requests (req : Z → Request) (first : Z) (n : nat)
  : list event :=
  (λ i : nat, EvGet (req (first + Z.of_nat i))) <$> seq 0 n.

(** A successful response with the items [repos]. *)
Definition ok_page (repos : list Repo) : Response :=
  {| status_code := 200; json := repos |}.

(** What the server answers to the requests for the pages 1 to [n]. *)
Definition responses (srv : Server) (req : Z → Request) (n : nat)
  : list Response :=
  (λ i : nat, srv (req (1 + Z.of_nat i))) <$> seq 0 n.

(** The first pages of a listing are [pages]: each request succeeds with
    status 200 and no page is empty. *)
Definition walks (srv : Server) (req : Z → Request) (pages : list (list Repo))
  : Prop :=
  Forall (λ pg, pg ≠ []) pages ∧
  responses srv req (length pages) = ok_page <$> pages.

(** The whole listing is [pages]: after them comes the first page with zero
    items. *)
Definition serves (srv : Server) (req : Z → Request) (pages : list (list Repo))
  : Prop :=
  walks srv req pages ∧ srv (req (1 + len pages)) = ok_page [].

(** The loop of [main] records [counts] under the label of the target [name]
    after the events [t] and goes on with the remaining targets. *)
Definition goes_on (fuel : nat) (srv : Server) (tok : option str) (name : str)
    (t : list event) (counts : Z * Z) : Prop :=
  ∀ label rest ds,
    main_loop fuel srv tok ((name, label) :: rest) ds =
    prepend t
      (main_loop fuel srv tok rest
         (dict_add (dict_setdefault ds label) label counts)).

(** The dict as a finite map: what [==] on dicts compares. *)
Definition to_map (d : Dict) : gmap str Stats := list_to_map d.

(** The counts fetched for the targets shown under [label], in order. *)
Definition counts_for (label : str) (fetched : list (str * (Z * Z)))
  : list (Z * Z) :=
  (filter (λ x, x.1 = label) fetched).*2.

(** The sums of the repository counts and of the star totals. *)
Definition total_of (cs : list (Z * Z)) : Stats :=
  {| repos := foldr Z.add 0 cs.*1; stars := foldr Z.add 0 cs.*2 |}.

(** What [get_org_stats] returns for a target, when it returns. *)
Definition fetched_counts (fuel : nat) (srv : Server) (tok : option str)
    (org_name : str) : option (Z * Z) :=
  match result (get_org_stats fuel srv org_name tok) with
  | Ret counts => Some counts
  | Exit _ | Spent => None
  end.

Definition zero_stats : Stats := {| repos := 0; stars := 0 |}.

(** Both [+=] at once. *)
Definition add_counts (c : Z * Z) (s : Stats) : Stats :=
  {| repos := repos s + c.1; stars := stars s + c.2 |}.

(** The fetch of a target returns within the budget. *)
Definition fetch_returns (fuel : nat) (srv : Server) (tok : option str)
    (org_name : str) : Prop :=
  is_Some (fetched_counts fuel srv tok org_name).

(** The targets with the counts fetched for them: the input of the
    aggregator. *)
Definition fetch_all (fuel : nat) (srv : Server) (tok : option str)
    (org_data : list (str * str)) : list (str * (Z * Z)) :=
  (λ target, (target.2,
              default (0, 0) (fetched_counts fuel srv tok target.1)))
  <$> org_data.

(** [b] may follow [a] in the sorted rows: the key of [a] is not below the
    key of [b]. *)
Definition key_ge (a b : str * Stats) : Prop :=
  tuple_lt (sort_key a) (sort_key b) = false.

(** The line printed for a row of the table. *)
Definition row_line (x : str * Stats) : event :=
  EvPrint (LRow x.1 (repos x.2) (stars x.2)).

(** The events of the fetches of all targets, in order. *)
Definition fetch_traces (fuel : nat) (srv : Server) (tok : option str)
    (org_data : list (str * str)) : list event :=
  mjoin ((λ target, trace (get_org_stats fuel srv target.1 tok)) <$> org_data).

(** ** Decidable equality of the data *)

#[global] Instance Params_eq_dec : EqDecision Params.
Proof. solve_decision. Defined.
#[global] Instance Request_eq_dec : EqDecision Request.
Proof. solve_decision. Defined.
#[global] Instance Repo_eq_dec : EqDecision Repo.
Proof. solve_decision. Defined.
#[global] Instance Response_eq_dec : EqDecision Response.
Proof. solve_decision. Defined.
#[global] Instance Stats_eq_dec : EqDecision Stats.
Proof. solve_decision. Defined.
#[global] Instance line_eq_dec : EqDecision line.
Proof. solve_decision. Defined.
#[global] Instance event_eq_dec : EqDecision event.
Proof. solve_decision. Defined.

(** ** A mocked server and input files *)

Definition starred (n : Z) : Repo := {| stargazers_count := n |}.

(** The answer of the mocked server for a listing given by its pages: the
    pages in order, then what follows the last one. *)
Definition paged (pages : list (list Repo)) (after : Response) (page : Z)
  : Response :=
  if (1 <=? page) && (page <=? len pages)
  then ok_page (default [] (pages !! Z.to_nat (page - 1)))
  else after.

Definition not_found : Response := {| status_code := 404; json := [] |}.
Definition server_error : Response := {| status_code := 500; json := [] |}.

Definition acme_pages : list (list Repo) :=
  [[starred 3; starred 4]; [starred 5]].

(** - [acme]: an organization and a user with the same two pages;
    - [bob]: no organization, a user with one repository;
    - [late]: an organization that disappears after its first page, and a
      user with two repositories;
    - [flaky]: an organization whose second page fails with status 500;
    - any other name, such as [ghost]: neither an organization nor a user. *)
Definition demo_server : Server := λ r,
  let p := page (params r) in
  if decide (url r = url (org_request (u "acme") None 1))
  then paged acme_pages (ok_page []) p
  else if decide (url r = url (user_request (u "acme") None 1))
  then paged acme_pages (ok_page []) p
  else if decide (url r = url (user_request (u "bob") None 1))
  then paged [[starred 1]] (ok_page []) p
  else if decide (url r = url (org_request (u "late") None 1))
  then paged [[starred 9]] not_found p
  else if decide (url r = url (user_request (u "late") None 1))
  then paged [[starred 2; starred 2]] (ok_page []) p
  else if decide (url r = url (org_request (u "flaky") None 1))
  then paged [[starred 7]] server_error p
  else not_found.

(** [shared.tsv] shows [ghost] and [acme] under the one label [Acme]. *)
Definition demo_files : FileSystem := λ filename,
  if decide (filename = u "shared.tsv")
  then Some (u "ghost" ++ [TAB] ++ u "Acme" ++ [LF]
             ++ u "acme" ++ [TAB] ++ u "Acme" ++ [LF])
  else if decide (filename = u "one.tsv")
  then Some (u "acme" ++ [LF])
  else None.

Definition demo_stats : Dict :=
  [(u "a", {| repos := 1; stars := 5 |});
   (u "b", {| repos := 3; stars := 9 |});
   (u "c", {| repos := 2; stars := 5 |})].

(** A server whose listings never end: every page holds one repository. *)
Definition endless_server : Server := λ _, ok_page [starred 1].

(** The distinct elements of [l] after those of [seen], each at the place of
    its first occurrence: the order in which a dict receives new keys. *)
Fixpoint first_seen (seen l : list str) : list str :=
  match l with
  | [] => seen
  | x :: l' => first_seen (if decide (x ∈ seen) then seen else seen ++ [x]) l'
  end.

(** The sum of one field over the entries of a dict. *)
Definition column_sum (g : Stats → Z) (d : Dict) : Z :=
  foldr Z.add 0 ((λ x, g x.2) <$> d).

(** * Properties *)

(** ** The effects and the paged fetcher *)

Lemma bind_get {A} srv r (k : Response → M A) :
  bind (requests_get srv r) k = prepend [EvGet r] (k (srv r)).
Proof. unfold bind, requests_get, prepend. by destruct (k (srv r)). Qed.

Lemma prepend_app {A} t1 t2 (m : M A) :
  prepend t1 (prepend t2 m) = prepend (t1 ++ t2) m.
Proof. unfold prepend; simpl. by rewrite app_assoc. Qed.

Lemma prepend_nil {A} (m : M A) : prepend [] m = m.
Proof. by destruct m. Qed.

Lemma sum_stars_app l1 l2 :
  sum_stars (l1 ++ l2) = sum_stars l1 + sum_stars l2.
Proof.
  unfold sum_stars. rewrite fmap_app, foldl_app.
  generalize (foldl Z.add 0 (stargazers_count <$> l1)) as a.
  induction (stargazers_count <$> l2) as [|x l IH] using rev_ind; intros a; simpl; [lia|].
  rewrite !foldl_app; simpl. rewrite IH. lia.
Qed.

Lemma len_app {A} (l1 l2 : list A) : len (l1 ++ l2) = len l1 + len l2.
Proof. unfold len. rewrite length_app. lia. Qed.

Lemma page_requests_S req p n :
  page_requests req p (S n) = EvGet (req p) :: page_requests req (p + 1) n.
Proof.
  unfold page_requests. simpl. rewrite Z.add_0_r. f_equal.
  rewrite <- fmap_S_seq, <- list_fmap_compose. apply list_fmap_ext.
  intros _ i _. simpl. do 2 f_equal. lia.
Qed.

Section Fetcher.
Context (srv : Server) (name : str) (tok : option str).

Lemma user_loop_S fuel p rc ts :
  user_loop (S fuel) srv name tok p rc ts =
  prepend [EvGet (user_request name tok p)]
    (let response := srv (user_request name tok p) in
     if status_code response =? 404 then ([EvPrint (LUserNotFound name)], Ret (0, 0))
     else if negb (status_code response =? 200) then
       ([EvPrint (LErrorFetching name (status_code response))], Ret (0, 0))
     else match json response with
          | [] => ([], Ret (rc, ts))
          | _ :: _ => user_loop fuel srv name tok (p + 1)
                        (rc + len (json response)) (ts + sum_stars (json response))
          end).
Proof.
  cbn [user_loop]. rewrite bind_get. reflexivity.
Qed.

Lemma org_loop_S fuel p rc ts :
  org_loop (S fuel) srv name tok p rc ts =
  prepend [EvGet (org_request name tok p)]
    (let response := srv (org_request name tok p) in
     if status_code response =? 404 then get_user_stats fuel srv name tok
     else if negb (status_code response =? 200) then
       ([EvPrint (LErrorFetching name (status_code response))], Ret (0, 0))
     else match json response with
          | [] => ([], Ret (rc, ts))
          | _ :: _ => org_loop fuel srv name tok (p + 1)
                        (rc + len (json response)) (ts + sum_stars (json response))
          end).
Proof. cbn [org_loop]. rewrite bind_get. reflexivity. Qed.

(** Pages that succeed and are not empty are walked one request each. *)
Lemma user_loop_pages (pages : list (list Repo)) fuel p rc ts :
  Forall (λ pg, pg ≠ []) pages →
  (∀ (i : nat) pg, pages !! i = Some pg →
     srv (user_request name tok (p + Z.of_nat i)) = ok_page pg) →
  user_loop (length pages + fuel) srv name tok p rc ts =
  prepend (page_requests (user_request name tok) p (length pages))
    (user_loop fuel srv name tok (p + len pages)
       (rc + len (concat pages)) (ts + sum_stars (concat pages))).
Proof.
  intros Hne. revert p rc ts.
  induction Hne as [|pg pages Hpg _ IH]; intros p rc ts Hsrv.
  - unfold len; simpl. rewrite prepend_nil, !Z.add_0_r. reflexivity.
  - cbn [length Nat.add]. rewrite user_loop_S.
    pose proof (Hsrv 0%nat pg eq_refl) as H0. rewrite Z.add_0_r in H0.
    rewrite H0. cbn [status_code json ok_page Z.eqb Pos.eqb negb].
    destruct pg as [|r pg]; [done|].
    rewrite IH, prepend_app, (page_requests_S (user_request name tok)).
    + f_equal. cbn [concat]. rewrite len_app, sum_stars_app.
      f_equal; unfold len; cbn [length]; lia.
    + intros i pg' Hi. rewrite <- (Hsrv (S i) pg' Hi). do 2 f_equal. lia.
Qed.

Lemma org_loop_pages (pages : list (list Repo)) fuel p rc ts :
  Forall (λ pg, pg ≠ []) pages →
  (∀ (i : nat) pg, pages !! i = Some pg →
     srv (org_request name tok (p + Z.of_nat i)) = ok_page pg) →
  org_loop (length pages + fuel) srv name tok p rc ts =
  prepend (page_requests (org_request name tok) p (length pages))
    (org_loop fuel srv name tok (p + len pages)
       (rc + len (concat pages)) (ts + sum_stars (concat pages))).
Proof.
  intros Hne. revert p rc ts.
  induction Hne as [|pg pages Hpg _ IH]; intros p rc ts Hsrv.
  - unfold len; simpl. rewrite prepend_nil, !Z.add_0_r. reflexivity.
  - cbn [length Nat.add]. rewrite org_loop_S.
    pose proof (Hsrv 0%nat pg eq_refl) as H0. rewrite Z.add_0_r in H0.
    rewrite H0. cbn [status_code json ok_page Z.eqb Pos.eqb negb].
    destruct pg as [|r pg]; [done|].
    rewrite IH, prepend_app, (page_requests_S (org_request name tok)).
    + f_equal. cbn [concat]. rewrite len_app, sum_stars_app.
      f_equal; unfold len; cbn [length]; lia.
    + intros i pg' Hi. rewrite <- (Hsrv (S i) pg' Hi). do 2 f_equal. lia.
Qed.
End Fetcher.

Section Budget.
Context (srv : Server) (name : str) (tok : option str).

(** A fetch that returned within a budget returns the same with a larger
    one. *)
Lemma user_loop_more_fuel fuel extra p rc ts t r :
  user_loop fuel srv name tok p rc ts = (t, Ret r) →
  user_loop (fuel + extra) srv name tok p rc ts = (t, Ret r).
Proof.
  revert p rc ts t. induction fuel as [|fuel IH]; intros p rc ts t; [done|].
  cbn [Nat.add]. rewrite !user_loop_S. cbn zeta.
  repeat case_match; try done.
  unfold prepend. intros [= <- Hr].
  destruct (user_loop fuel _ _ _ _ _ _) as [t' o] eqn:Hl. simpl in Hr. subst o.
  by rewrite (IH _ _ _ _ Hl).
Qed.

Lemma org_loop_more_fuel fuel extra p rc ts t r :
  org_loop fuel srv name tok p rc ts = (t, Ret r) →
  org_loop (fuel + extra) srv name tok p rc ts = (t, Ret r).
Proof.
  revert p rc ts t. induction fuel as [|fuel IH]; intros p rc ts t; [done|].
  cbn [Nat.add]. rewrite !org_loop_S. cbn zeta.
  repeat case_match; try done.
  - unfold prepend, get_user_stats. intros [= <- Hr].
    destruct (user_loop fuel _ _ _ _ _ _) as [t' o] eqn:Hl. simpl in Hr. subst o.
    by rewrite (user_loop_more_fuel _ _ _ _ _ _ _ Hl).
  - unfold prepend. intros [= <- Hr].
    destruct (org_loop fuel _ _ _ _ _ _) as [t' o] eqn:Hl. simpl in Hr. subst o.
    by rewrite (IH _ _ _ _ Hl).
Qed.
End Budget.

Lemma walks_lookup srv req pages (i : nat) pg :
  walks srv req pages → pages !! i = Some pg →
  srv (req (1 + Z.of_nat i)) = ok_page pg.
Proof.
  intros [_ Heq] Hi.
  assert (responses srv req (length pages) !! i = Some (ok_page pg)) as H.
  { rewrite Heq, list_lookup_fmap, Hi. reflexivity. }
  unfold responses in H. rewrite list_lookup_fmap in H.
  apply lookup_lt_Some in Hi.
  rewrite lookup_seq_lt in H by done. simpl in H. congruence.
Qed.

Section FetcherEnds.
Context (srv : Server) (name : str) (tok : option str).
Implicit Types pages : list (list Repo).

Lemma get_user_stats_walk pages fuel :
  walks srv (user_request name tok) pages →
  get_user_stats (length pages + fuel) srv name tok =
  prepend (page_requests (user_request name tok) 1 (length pages))
    (user_loop fuel srv name tok (1 + len pages)
       (len (concat pages)) (sum_stars (concat pages))).
Proof.
  intros Hw. unfold get_user_stats.
  rewrite (user_loop_pages srv name tok pages); [reflexivity|apply Hw|].
  intros i pg. by apply walks_lookup.
Qed.

Lemma get_org_stats_walk pages fuel :
  walks srv (org_request name tok) pages →
  get_org_stats (length pages + fuel) srv name tok =
  prepend (page_requests (org_request name tok) 1 (length pages))
    (org_loop fuel srv name tok (1 + len pages)
       (len (concat pages)) (sum_stars (concat pages))).
Proof.
  intros Hw. unfold get_org_stats.
  rewrite (org_loop_pages srv name tok pages); [reflexivity|apply Hw|].
  intros i pg. by apply walks_lookup.
Qed.

Lemma page_requests_snoc req n :
  page_requests req 1 (S n) =
  page_requests req 1 n ++ [EvGet (req (1 + Z.of_nat n))].
Proof. unfold page_requests. rewrite seq_S, fmap_app. reflexivity. Qed.
End FetcherEnds.

Section FetcherClaims.
Context (srv : Server) (name : str) (tok : option str).
Implicit Types pages : list (list Repo).

Lemma get_user_stats_serves pages fuel :
  (length pages < fuel)%nat →
  serves srv (user_request name tok) pages →
  get_user_stats fuel srv name tok =
  (page_requests (user_request name tok) 1 (S (length pages)),
   Ret (len (concat pages), sum_stars (concat pages))).
Proof.
  intros Hfuel [Hw Hend].
  replace fuel with (length pages + S (fuel - S (length pages)))%nat by lia.
  rewrite get_user_stats_walk, user_loop_S, Hend by done.
  rewrite prepend_app, <- page_requests_snoc. cbn.
  unfold prepend; cbn. by rewrite app_nil_r.
Qed.

Lemma get_org_stats_serves pages fuel :
  (length pages < fuel)%nat →
  serves srv (org_request name tok) pages →
  get_org_stats fuel srv name tok =
  (page_requests (org_request name tok) 1 (S (length pages)),
   Ret (len (concat pages), sum_stars (concat pages))).
Proof.
  intros Hfuel [Hw Hend].
  replace fuel with (length pages + S (fuel - S (length pages)))%nat by lia.
  rewrite get_org_stats_walk, org_loop_S, Hend by done.
  rewrite prepend_app, <- page_requests_snoc. cbn.
  unfold prepend; cbn. by rewrite app_nil_r.
Qed.

(** C1. A listing served as the pages [pages], each with status 200 and at
    least one item, followed by the first page with zero items, is fetched
    with one request per page from page 1 on, 100 items a page: the fetcher
    returns the number of items of all pages and the sum of their star
    fields, whatever the number of pages and the way the listing is cut into
    them. This holds for the organization loop and for the user loop. *)
Theorem fetch_counts_every_page pages fuel :
  (length pages < fuel)%nat →
  (serves srv (org_request name tok) pages →
   get_org_stats fuel srv name tok =
   (page_requests (org_request name tok) 1 (S (length pages)),
    Ret (len (concat pages), sum_stars (concat pages))))
  ∧
  (serves srv (user_request name tok) pages →
   get_user_stats fuel srv name tok =
   (page_requests (user_request name tok) 1 (S (length pages)),
    Ret (len (concat pages), sum_stars (concat pages)))).
Proof.
  intros Hfuel. split; intros Hs.
  - by apply get_org_stats_serves.
  - by apply get_user_stats_serves.
Qed.

Lemma org_not_found_at pages fuel :
  walks srv (org_request name tok) pages →
  status_code (srv (org_request name tok (1 + len pages))) = 404 →
  get_org_stats (S (length pages) + fuel) srv name tok =
  prepend (page_requests (org_request name tok) 1 (S (length pages)))
    (get_user_stats fuel srv name tok).
Proof.
  intros Hw H404.
  replace (S (length pages) + fuel)%nat with (length pages + S fuel)%nat by lia.
  rewrite get_org_stats_walk, org_loop_S by done. cbn zeta.
  rewrite H404. cbn [Z.eqb Pos.eqb].
  by rewrite prepend_app, <- page_requests_snoc.
Qed.

Lemma org_error_at pages fuel :
  walks srv (org_request name tok) pages →
  status_code (srv (org_request name tok (1 + len pages))) ≠ 404 →
  status_code (srv (org_request name tok (1 + len pages))) ≠ 200 →
  get_org_stats (S (length pages) + fuel) srv name tok =
  (page_requests (org_request name tok) 1 (S (length pages)) ++
   [EvPrint (LErrorFetching name
      (status_code (srv (org_request name tok (1 + len pages)))))],
   Ret (0, 0)).
Proof.
  intros Hw H404 H200.
  replace (S (length pages) + fuel)%nat with (length pages + S fuel)%nat by lia.
  rewrite get_org_stats_walk, org_loop_S by done. cbn zeta.
  apply Z.eqb_neq in H404, H200. rewrite H404, H200. cbn [negb].
  by rewrite prepend_app, <- page_requests_snoc.
Qed.

Lemma user_error_at pages fuel :
  walks srv (user_request name tok) pages →
  status_code (srv (user_request name tok (1 + len pages))) ≠ 404 →
  status_code (srv (user_request name tok (1 + len pages))) ≠ 200 →
  get_user_stats (S (length pages) + fuel) srv name tok =
  (page_requests (user_request name tok) 1 (S (length pages)) ++
   [EvPrint (LErrorFetching name
      (status_code (srv (user_request name tok (1 + len pages)))))],
   Ret (0, 0)).
Proof.
  intros Hw H404 H200.
  replace (S (length pages) + fuel)%nat with (length pages + S fuel)%nat by lia.
  rewrite get_user_stats_walk, user_loop_S by done. cbn zeta.
  apply Z.eqb_neq in H404, H200. rewrite H404, H200. cbn [negb].
  by rewrite prepend_app, <- page_requests_snoc.
Qed.

Lemma user_not_found_at pages fuel :
  walks srv (user_request name tok) pages →
  status_code (srv (user_request name tok (1 + len pages))) = 404 →
  get_user_stats (S (length pages) + fuel) srv name tok =
  (page_requests (user_request name tok) 1 (S (length pages)) ++
   [EvPrint (LUserNotFound name)],
   Ret (0, 0)).
Proof.
  intros Hw H404.
  replace (S (length pages) + fuel)%nat with (length pages + S fuel)%nat by lia.
  rewrite get_user_stats_walk, user_loop_S by done. cbn zeta.
  rewrite H404. cbn [Z.eqb Pos.eqb].
  by rewrite prepend_app, <- page_requests_snoc.
Qed.

(** The loop of [main] goes on with the next target whenever the fetch
    returns. *)
Lemma main_loop_cons fuel t counts label rest ds :
  get_org_stats fuel srv name tok = (t, Ret counts) →
  main_loop fuel srv tok ((name, label) :: rest) ds =
  prepend t
    (main_loop fuel srv tok rest
       (dict_add (dict_setdefault ds label) label counts)).
Proof.
  intros Hf. cbn [main_loop]. rewrite Hf. unfold bind, prepend.
  by destruct (main_loop _ _ _ _ _).
Qed.

(** C2. When the organization request is answered 404, the fetch goes on as
    [get_user_stats] for the same identifier: the next request is page 1 of
    the user listing, the result is the result of the user fetch, and a user
    listing served in pages is counted in full. *)
Theorem org_not_found_tries_user fuel :
  status_code (srv (org_request name tok 1)) = 404 →
  (0 < fuel)%nat →
  get_org_stats (S fuel) srv name tok =
    prepend [EvGet (org_request name tok 1)]
      (get_user_stats fuel srv name tok)
  ∧ (∃ t, trace (get_user_stats fuel srv name tok) =
          EvGet (user_request name tok 1) :: t)
  ∧ result (get_org_stats (S fuel) srv name tok) =
    result (get_user_stats fuel srv name tok)
  ∧ (∀ pages, serves srv (user_request name tok) pages →
       (length pages < fuel)%nat →
       result (get_org_stats (S fuel) srv name tok) =
       Ret (len (concat pages), sum_stars (concat pages))).
Proof.
  intros H404 Hfuel.
  assert (get_org_stats (S fuel) srv name tok =
          prepend [EvGet (org_request name tok 1)]
            (get_user_stats fuel srv name tok)) as Heq.
  { apply (org_not_found_at [] fuel); [|exact H404].
    split; [constructor|reflexivity]. }
  split; [exact Heq|]. split; [|split].
  - destruct fuel as [|fuel]; [lia|]. unfold get_user_stats.
    rewrite user_loop_S. eexists. reflexivity.
  - by rewrite Heq.
  - intros pages Hs Hlt. rewrite Heq.
    by rewrite (get_user_stats_serves pages).
Qed.

(** C10. A 404 on an organization page that follows successful pages drops
    what those pages added: the fetch goes on as the user loop from page 1
    with both accumulators at 0, and its result is the result of the user
    fetch. *)
Theorem late_not_found_discards_org_pages pages fuel :
  pages ≠ [] →
  walks srv (org_request name tok) pages →
  status_code (srv (org_request name tok (1 + len pages))) = 404 →
  (length pages < fuel)%nat →
  get_org_stats fuel srv name tok =
    prepend (page_requests (org_request name tok) 1 (S (length pages)))
      (user_loop (fuel - S (length pages)) srv name tok 1 0 0)
  ∧ result (get_org_stats fuel srv name tok) =
    result (get_user_stats (fuel - S (length pages)) srv name tok)
  ∧ (∀ upages, serves srv (user_request name tok) upages →
       (S (length pages) + length upages < fuel)%nat →
       result (get_org_stats fuel srv name tok) =
       Ret (len (concat upages), sum_stars (concat upages))).
Proof.
  intros _ Hw H404 Hfuel.
  assert (get_org_stats fuel srv name tok =
          prepend (page_requests (org_request name tok) 1 (S (length pages)))
            (get_user_stats (fuel - S (length pages)) srv name tok)) as Heq.
  { rewrite <- org_not_found_at by done. f_equal. lia. }
  split; [exact Heq|]. split.
  - by rewrite Heq.
  - intros upages Hs Hlt. rewrite Heq.
    rewrite (get_user_stats_serves upages) by (done || lia). reflexivity.
Qed.

(** C4. A status other than 200 and 404, on the first page or on a later
    one, of the organization listing or of the user listing reached after a
    404, ends the fetch at once: no request follows the failing one, one
    diagnostic is printed, the result is (0, 0) whatever the earlier pages
    held, and the loop of [main] goes on with the remaining targets. *)
Theorem error_status_aborts_fetch opages upages s fuel :
  s ≠ 200 → s ≠ 404 →
  ((length opages < fuel)%nat →
   walks srv (org_request name tok) opages →
   status_code (srv (org_request name tok (1 + len opages))) = s →
   let t := page_requests (org_request name tok) 1 (S (length opages)) ++
            [EvPrint (LErrorFetching name s)] in
   get_org_stats fuel srv name tok = (t, Ret (0, 0))
   ∧ goes_on fuel srv tok name t (0, 0))
  ∧
  ((length upages < fuel)%nat →
   walks srv (user_request name tok) upages →
   status_code (srv (user_request name tok (1 + len upages))) = s →
   get_user_stats fuel srv name tok =
     (page_requests (user_request name tok) 1 (S (length upages)) ++
      [EvPrint (LErrorFetching name s)], Ret (0, 0)))
  ∧
  ((S (length opages) + length upages < fuel)%nat →
   walks srv (org_request name tok) opages →
   status_code (srv (org_request name tok (1 + len opages))) = 404 →
   walks srv (user_request name tok) upages →
   status_code (srv (user_request name tok (1 + len upages))) = s →
   let t := page_requests (org_request name tok) 1 (S (length opages)) ++
            page_requests (user_request name tok) 1 (S (length upages)) ++
            [EvPrint (LErrorFetching name s)] in
   get_org_stats fuel srv name tok = (t, Ret (0, 0))
   ∧ goes_on fuel srv tok name t (0, 0)).
Proof.
  intros H200 H404.
  assert (∀ n, (length upages < n)%nat →
    walks srv (user_request name tok) upages →
    status_code (srv (user_request name tok (1 + len upages))) = s →
    get_user_stats n srv name tok =
      (page_requests (user_request name tok) 1 (S (length upages)) ++
       [EvPrint (LErrorFetching name s)], Ret (0, 0))) as Huser.
  { intros n Hn Hw Hs.
    replace n with (S (length upages) + (n - S (length upages)))%nat by lia.
    rewrite user_error_at by (done || congruence). by rewrite Hs. }
  split; [|split].
  - intros Hfuel Hw Hs t.
    assert (get_org_stats fuel srv name tok = (t, Ret (0, 0))) as Heq.
    { replace fuel with (S (length opages) + (fuel - S (length opages)))%nat
        by lia.
      rewrite org_error_at by (done || congruence). by rewrite Hs. }
    split; [exact Heq|]. intros label rest ds. by apply main_loop_cons.
  - exact (Huser fuel).
  - intros Hfuel Hwo Ho Hwu Hs t.
    assert (get_org_stats fuel srv name tok = (t, Ret (0, 0))) as Heq.
    { replace fuel with (S (length opages) + (fuel - S (length opages)))%nat
        by lia.
      rewrite org_not_found_at, Huser by (done || lia). reflexivity. }
    split; [exact Heq|]. intros label rest ds. by apply main_loop_cons.
Qed.
End FetcherClaims.

(** ** Reading the input file *)

Lemma split_not_nil sep s : split sep s ≠ [].
Proof. destruct s as [|c s]; simpl; [done|]. repeat case_match; done. Qed.

Lemma split_no_sep sep s : sep ∉ s → split sep s = [s].
Proof.
  induction s as [|c s IH]; intros Hs; simpl; [done|].
  apply not_elem_of_cons in Hs as [Hc Hs].
  destruct (N.eqb_spec c sep) as [->|_]; [done|].
  by rewrite IH.
Qed.

(** [split] cuts at every separator and nowhere else. *)
Lemma join_split sep s :
  join sep (split sep s) = s ∧ Forall (λ p, sep ∉ p) (split sep s).
Proof.
  induction s as [|c s [IHj IHf]]; simpl.
  - split; [done|]. repeat constructor. apply not_elem_of_nil.
  - destruct (N.eqb_spec c sep) as [->|Hc].
    + split.
      * pose proof (split_not_nil sep s). simpl.
        destruct (split sep s) as [|p ps]; [done|]. by rewrite IHj.
      * constructor; [apply not_elem_of_nil|done].
    + pose proof (split_not_nil sep s) as Hnn.
      destruct (split sep s) as [|p ps]; [done|].
      split.
      * rewrite <- IHj. simpl. by destruct ps.
      * apply Forall_cons in IHf as [Hp Hps]. constructor; [|done].
        apply not_elem_of_cons. split; [congruence|done].
Qed.

Lemma lstrip_spec s :
  ∃ ws, s = ws ++ lstrip s
        ∧ Forall (λ c, isspace c = true) ws
        ∧ ∀ c, head (lstrip s) = Some c → isspace c = false.
Proof.
  induction s as [|c s (ws & Hs & Hws & Hhd)]; simpl.
  - exists []. by repeat split.
  - destruct (isspace c) eqn:Hc.
    + exists (c :: ws). split; [by rewrite Hs at 1|]. split; [by constructor|done].
    + exists []. split; [done|]. split; [constructor|].
      by intros ? [= <-].
Qed.

Lemma rstrip_spec s :
  ∃ ws, s = rstrip s ++ ws
        ∧ Forall (λ c, isspace c = true) ws
        ∧ ∀ c, last (rstrip s) = Some c → isspace c = false.
Proof.
  destruct (lstrip_spec (reverse s)) as (ws & Hs & Hws & Hhd).
  exists (reverse ws). unfold rstrip. split; [|split].
  - rewrite <- reverse_app, <- Hs. by rewrite reverse_involutive.
  - by apply Forall_reverse.
  - intros c. rewrite last_reverse. apply Hhd.
Qed.

(** [strip] removes the white space at the two ends and nothing else. *)
Lemma strip_spec s :
  ∃ ws1 ws2, s = ws1 ++ strip s ++ ws2
    ∧ Forall (λ c, isspace c = true) ws1
    ∧ Forall (λ c, isspace c = true) ws2
    ∧ (∀ c, head (strip s) = Some c → isspace c = false)
    ∧ (∀ c, last (strip s) = Some c → isspace c = false).
Proof.
  destruct (lstrip_spec s) as (ws1 & Hs1 & Hws1 & Hhd).
  destruct (rstrip_spec (lstrip s)) as (ws2 & Hs2 & Hws2 & Hlast).
  exists ws1, ws2. unfold strip. repeat split; try done.
  - by rewrite <- Hs2.
  - intros c Hc. apply Hhd. rewrite Hs2.
    destruct (rstrip (lstrip s)); [done|]. exact Hc.
Qed.


(** C9, as amended. Let [s] be the line without the white space at its two
    ends. An empty [s] gives no pair; an [s] without a tab gives [(s, s)];
    otherwise the pair is made of the first two tab-separated columns of
    [s]. The reader returns the pairs of the lines of the file, in order. *)
Theorem parse_line_columns (line : str) :
  let s := strip line in
  (∃ ws1 ws2, line = ws1 ++ s ++ ws2
     ∧ Forall (λ c, isspace c = true) ws1
     ∧ Forall (λ c, isspace c = true) ws2
     ∧ (∀ c, head s = Some c → isspace c = false)
     ∧ (∀ c, last s = Some c → isspace c = false))
  ∧ (s = [] → parse_line line = None)
  ∧ (s ≠ [] → TAB ∉ s → parse_line line = Some (s, s))
  ∧ (∀ c1 c2 rest, split TAB s = c1 :: c2 :: rest →
       parse_line line = Some (c1, c2)
       ∧ s = c1 ++ TAB :: join TAB (c2 :: rest)
       ∧ (TAB ∉ c1) ∧ (TAB ∉ c2))
  ∧ (∀ fs filename text, fs filename = Some text →
       read_orgs_from_file fs filename =
       ([], Ret (omap parse_line (readlines (universal_newlines text))))).
Proof.
  intros s. split; [apply strip_spec|].
  unfold parse_line. fold s. repeat split.
  - by intros ->.
  - intros Hne Htab. rewrite (split_no_sep TAB s Htab). by destruct s.
  - rewrite H. destruct s; [discriminate H|done].
  - destruct (join_split TAB s) as [<- _]. rewrite H. reflexivity.
  - destruct (join_split TAB s) as [_ Hf]. rewrite H in Hf.
    by apply Forall_cons in Hf as [? _].
  - destruct (join_split TAB s) as [_ Hf]. rewrite H in Hf.
    apply Forall_cons in Hf as [_ Hf]. by apply Forall_cons in Hf as [? _].
  - intros fs filename text Hfs. unfold read_orgs_from_file. by rewrite Hfs.
Qed.

Lemma parse_line_columns_witness :
  parse_line (u " acme " ++ [TAB] ++ u "Acme Inc" ++ [TAB; LF])
  = Some (u "acme ", u "Acme Inc")
  ∧ parse_line (u "bob" ++ [CR; LF]) = Some (u "bob", u "bob")
  ∧ parse_line [TAB; LF] = None.
Proof.
  split; [|split].
  - eapply (parse_line_columns (u " acme " ++ [TAB] ++ u "Acme Inc" ++ [TAB; LF])).
    vm_compute. reflexivity.
  - apply (parse_line_columns (u "bob" ++ [CR; LF])); [done|].
    apply (bool_decide_unpack _). vm_compute. exact I.
  - by apply (parse_line_columns [TAB; LF]).
Defined.

(** C9, as stated, fails: the blanks and tabs at the ends of a line are
    removed before the line is cut into columns. *)
Lemma columns_not_verbatim :
  ¬ (∀ line : str, TAB ∉ line → parse_line line = Some (line, line))
  ∧ ¬ (∀ (line : str) c1 c2 rest, split TAB line = c1 :: c2 :: rest →
         parse_line line = Some (c1, c2)).
Proof.
  split.
  - intros H. specialize (H (u " a")).
    assert (TAB ∉ u " a") as Ht
      by (apply (bool_decide_unpack _); vm_compute; exact I).
    specialize (H Ht). vm_compute in H. discriminate H.
  - intros H. specialize (H (u "a" ++ [TAB]) (u "a") [] [] eq_refl).
    vm_compute in H. discriminate H.
Qed.

(** ** Aggregation by display name *)


Lemma dict_get_snoc d k v k' :
  dict_get (d ++ [(k, v)]) k' =
  match dict_get d k' with
  | Some x => Some x
  | None => if decide (k = k') then Some v else None
  end.
Proof.
  induction d as [|[k0 v0] d IH]; simpl; [done|].
  by destruct (decide (k0 = k')).
Qed.

Lemma dict_get_alter f k d k' :
  dict_get (dict_alter f k d) k' =
  if decide (k = k') then f <$> dict_get d k else dict_get d k'.
Proof.
  induction d as [|[k0 v0] d IH]; simpl; [by case_decide|].
  destruct (decide (k0 = k)) as [->|Hk]; simpl.
  - destruct (decide (k = k')) as [->|]; simpl; by rewrite ?decide_True.
  - destruct (decide (k0 = k')) as [->|]; simpl.
    + by rewrite decide_False.
    + rewrite IH. by destruct (decide (k = k')).
Qed.

Lemma dict_get_step d k c k' :
  dict_get (dict_add (dict_setdefault d k) k c) k' =
  if decide (k = k')
  then Some (add_counts c (default zero_stats (dict_get d k)))
  else dict_get d k'.
Proof.
  unfold dict_add, dict_setdefault. rewrite !dict_get_alter.
  destruct (decide (k = k')) as [<-|Hk].
  - rewrite decide_True by done.
    destruct (dict_get d k) as [s|] eqn:Hd; rewrite ?dict_get_snoc, ?Hd; simpl.
    + reflexivity.
    + by rewrite decide_True.
  - destruct (dict_get d k) as [s|] eqn:Hd; [done|].
    rewrite dict_get_snoc. destruct (dict_get d k'); [done|].
    by rewrite decide_False.
Qed.

Lemma foldl_add_counts s cs :
  foldl (λ s c, add_counts c s) s cs =
  {| repos := repos s + repos (total_of cs);
     stars := stars s + stars (total_of cs) |}.
Proof.
  revert s. induction cs as [|[r n] cs IH]; intros s.
  - destruct s; unfold total_of; simpl. f_equal; lia.
  - cbn [foldl]. rewrite IH. unfold total_of, add_counts; simpl.
    f_equal; rewrite <- Z.add_assoc; reflexivity.
Qed.

Lemma foldl_step_some o cs :
  foldl (λ o c, Some (add_counts c (default zero_stats o))) o cs =
  match cs with
  | [] => o
  | _ :: _ => Some (foldl (λ s c, add_counts c s) (default zero_stats o) cs)
  end.
Proof.
  revert o. induction cs as [|c cs IH]; intros o; [done|].
  simpl. rewrite IH. by destruct cs.
Qed.

(** Each label is looked up as if it had been aggregated alone. *)
Lemma dict_get_aggregate fetched d k :
  dict_get (aggregate fetched d) k =
  match counts_for k fetched with
  | [] => dict_get d k
  | _ :: _ =>
    Some {| repos := repos (default zero_stats (dict_get d k))
                     + repos (total_of (counts_for k fetched));
            stars := stars (default zero_stats (dict_get d k))
                     + stars (total_of (counts_for k fetched)) |}
  end.
Proof.
  transitivity
    (foldl (λ o c, Some (add_counts c (default zero_stats o)))
       (dict_get d k) (counts_for k fetched)).
  - revert d. induction fetched as [|[l c] fetched IH]; intros d; [done|].
    cbn [aggregate]. rewrite IH, dict_get_step.
    unfold counts_for. rewrite filter_cons. cbn [fst].
    destruct (decide (l = k)) as [->|Hl]; [|done].
    reflexivity.
  - rewrite foldl_step_some. destruct (counts_for k fetched); [done|].
    by rewrite foldl_add_counts.
Qed.

Lemma sum_perm (l l' : list Z) :
  l ≡ₚ l' → foldr Z.add 0 l = foldr Z.add 0 l'.
Proof.
  induction 1 as [|x l l' _ IH|x y l|l1 l2 l3 _ IH1 _ IH2]; simpl; lia.
Qed.

Lemma total_of_perm cs cs' : cs ≡ₚ cs' → total_of cs = total_of cs'.
Proof.
  intros Hp. unfold total_of.
  f_equal; apply sum_perm; by apply fmap_Permutation.
Qed.

Lemma counts_for_perm k fetched fetched' :
  fetched ≡ₚ fetched' → counts_for k fetched ≡ₚ counts_for k fetched'.
Proof. intros Hp. unfold counts_for. by rewrite Hp. Qed.

Lemma to_map_lookup d k : to_map d !! k = dict_get d k.
Proof.
  unfold to_map. induction d as [|[k0 v0] d IH]; simpl; [done|].
  destruct (decide (k0 = k)) as [->|Hk].
  - by rewrite lookup_insert_eq.
  - by rewrite lookup_insert_ne.
Qed.

Lemma aggregate_perm fetched fetched' d :
  fetched ≡ₚ fetched' →
  to_map (aggregate fetched d) = to_map (aggregate fetched' d).
Proof.
  intros Hp. apply map_eq. intros k.
  rewrite !to_map_lookup, !dict_get_aggregate.
  pose proof (counts_for_perm k _ _ Hp) as Hc.
  pose proof (total_of_perm _ _ Hc) as Ht.
  destruct (counts_for k fetched) as [|c cs] eqn:E1,
           (counts_for k fetched') as [|c' cs'] eqn:E2.
  - done.
  - by apply Permutation_nil_cons in Hc.
  - symmetry in Hc. by apply Permutation_nil_cons in Hc.
  - by rewrite Ht.
Qed.

(** When every fetch returns, the loop of [main] is the aggregator applied
    to what was fetched. *)
Lemma main_loop_aggregate fuel srv tok org_data ds :
  Forall (λ target, fetch_returns fuel srv tok target.1) org_data →
  main_loop fuel srv tok org_data ds =
  (fetch_traces fuel srv tok org_data,
   Ret (aggregate (fetch_all fuel srv tok org_data) ds)).
Proof.
  intros Hall. revert ds.
  induction Hall as [|[name label] org_data Hret _ IH]; intros ds; [done|].
  unfold fetch_returns, fetched_counts, result in Hret. simpl in Hret.
  destruct (get_org_stats fuel srv name tok) as [t [counts| |]] eqn:Hf;
    simpl in Hret; try (by apply is_Some_None in Hret).
  rewrite (main_loop_cons srv name tok fuel t counts) by done.
  rewrite IH. unfold prepend, fetch_traces, fetch_all, fetched_counts, result.
  simpl. rewrite Hf. reflexivity.
Qed.

Lemma aggregate_lookup (pairs : list (str * (Z * Z))) label :
  to_map (aggregate pairs []) !! label =
  match counts_for label pairs with
  | [] => None
  | _ :: _ => Some (total_of (counts_for label pairs))
  end.
Proof.
  rewrite to_map_lookup, dict_get_aggregate.
  destruct (counts_for label pairs); [done|]. reflexivity.
Qed.

(** C5. When the fetches return, the loop of [main] ends with a dict that
    maps every display label to the sums, from 0, of the repository counts
    and star totals fetched for the targets shown under it, and the loop
    run on a permutation of the targets ends with the same mapping. The
    same holds of the aggregator on any sequence of labels with their
    fetched counts. *)
Theorem aggregation_is_order_independent fuel srv tok
    (org_data org_data' : list (str * str)) :
  org_data ≡ₚ org_data' →
  Forall (λ target, fetch_returns fuel srv tok target.1) org_data →
  let fetched := fetch_all fuel srv tok org_data in
  (∃ ds ds',
     result (main_loop fuel srv tok org_data []) = Ret ds
     ∧ result (main_loop fuel srv tok org_data' []) = Ret ds'
     ∧ to_map ds = to_map ds'
     ∧ ∀ label,
         to_map ds !! label =
         match counts_for label fetched with
         | [] => None
         | _ :: _ => Some (total_of (counts_for label fetched))
         end)
  ∧ (∀ pairs pairs' : list (str * (Z * Z)),
       pairs ≡ₚ pairs' →
       to_map (aggregate pairs []) = to_map (aggregate pairs' [])
       ∧ ∀ label,
           to_map (aggregate pairs []) !! label =
           match counts_for label pairs with
           | [] => None
           | _ :: _ => Some (total_of (counts_for label pairs))
           end).
Proof.
  intros Hp Hall fetched. split.
  - assert (Forall (λ target, fetch_returns fuel srv tok target.1) org_data')
      as Hall' by (by rewrite <- Hp).
    exists (aggregate fetched []),
           (aggregate (fetch_all fuel srv tok org_data') []).
    rewrite !main_loop_aggregate by done.
    split; [done|]. split; [done|]. split.
    + apply aggregate_perm. unfold fetched, fetch_all. by rewrite Hp.
    + apply aggregate_lookup.
  - intros pairs pairs' Hpairs. split; [by apply aggregate_perm|].
    apply aggregate_lookup.
Qed.

(** ** The report *)

Lemma tuple_lt_true a b :
  tuple_lt a b = true ↔ a.1 < b.1 ∨ (a.1 = b.1 ∧ a.2 < b.2).
Proof.
  unfold tuple_lt.
  destruct (Z.ltb_spec a.1 b.1), (Z.eqb_spec a.1 b.1), (Z.ltb_spec a.2 b.2);
    simpl; split; intros; (done || lia).
Qed.

Lemma tuple_lt_false a b :
  tuple_lt a b = false ↔ b.1 < a.1 ∨ (a.1 = b.1 ∧ b.2 <= a.2).
Proof.
  unfold tuple_lt.
  destruct (Z.ltb_spec a.1 b.1), (Z.eqb_spec a.1 b.1), (Z.ltb_spec a.2 b.2);
    simpl; split; intros; (done || lia).
Qed.

Lemma key_ge_trans a b c : key_ge a b → key_ge b c → key_ge a c.
Proof. unfold key_ge. rewrite !tuple_lt_false. lia. Qed.

Lemma key_lt_ge a b : tuple_lt (sort_key a) (sort_key b) = true → key_ge b a.
Proof. unfold key_ge. rewrite tuple_lt_true, tuple_lt_false. lia. Qed.

Lemma insert_reverse_perm x l : insert_reverse x l ≡ₚ x :: l.
Proof.
  induction l as [|y l IH]; simpl; [done|].
  case_match; [|done]. rewrite IH. apply Permutation_swap.
Qed.

Lemma sorted_reverse_perm items : sorted_reverse items ≡ₚ items.
Proof.
  induction items as [|x items IH]; simpl; [done|].
  by rewrite insert_reverse_perm, IH.
Qed.

Lemma insert_reverse_sorted x l :
  StronglySorted key_ge l → StronglySorted key_ge (insert_reverse x l).
Proof.
  induction 1 as [|y l Hl IH Hy]; simpl.
  - repeat constructor.
  - destruct (tuple_lt (sort_key x) (sort_key y)) eqn:Hxy.
    + constructor; [done|].
      rewrite insert_reverse_perm. constructor; [|done].
      by apply key_lt_ge.
    + constructor; [by constructor|]. constructor; [done|].
      eapply Forall_impl; [exact Hy|]. intros z Hz.
      by apply (key_ge_trans x y z).
Qed.

Lemma sorted_reverse_sorted items :
  StronglySorted key_ge (sorted_reverse items).
Proof.
  induction items as [|x items IH]; simpl; [constructor|].
  by apply insert_reverse_sorted.
Qed.

Lemma StronglySorted_lookup {A} (R : relation A) l (i j : nat) a b :
  StronglySorted R l → l !! i = Some a → l !! j = Some b → (i < j)%nat →
  R a b.
Proof.
  intros Hs. revert i j. induction Hs as [|x l _ IH Hx]; intros i j Hi Hj Hlt.
  - done.
  - destruct j as [|j]; [lia|]. destruct i as [|i]; simpl in *.
    + injection Hi as ->. rewrite Forall_forall in Hx. apply Hx.
      by eapply list_elem_of_lookup_2.
    + apply (IH i j); (done || lia).
Qed.

(** The order of the sorted items. *)
Lemma sorted_reverse_order (display_stats : Dict) (i j : nat)
    (A B : str * Stats) :
  sorted_reverse display_stats !! i = Some A →
  sorted_reverse display_stats !! j = Some B →
  sorted_reverse display_stats ≡ₚ display_stats
  ∧ (stars A.2 > stars B.2 → (i < j)%nat)
  ∧ (stars A.2 = stars B.2 → (i < j)%nat → repos A.2 >= repos B.2).
Proof.
  intros Hi Hj. pose proof (sorted_reverse_sorted display_stats) as Hs.
  split; [apply sorted_reverse_perm|]. split.
  - intros Hgt. destruct (decide (i < j)%nat) as [|Hge]; [done|].
    destruct (decide (i = j)) as [->|Hne].
    + rewrite Hi in Hj. injection Hj as ->. lia.
    + assert (key_ge B A) as H
        by (apply (StronglySorted_lookup key_ge _ j i _ _ Hs Hj Hi); lia).
      unfold key_ge in H. rewrite tuple_lt_false in H. simpl in H. lia.
  - intros Heq Hlt.
    pose proof (StronglySorted_lookup key_ge _ i j _ _ Hs Hi Hj Hlt) as H.
    unfold key_ge in H. rewrite tuple_lt_false in H. simpl in H. lia.
Qed.

Lemma report_loop_rows rows total_repos total_stars :
  report_loop rows total_repos total_stars =
  (row_line <$> rows,
   Ret (total_repos + foldr Z.add 0 ((λ x, repos x.2) <$> rows),
        total_stars + foldr Z.add 0 ((λ x, stars x.2) <$> rows))).
Proof.
  revert total_repos total_stars.
  induction rows as [|[k v] rows IH]; intros tr ts; simpl.
  - unfold ret. by rewrite !Z.add_0_r.
  - rewrite IH. unfold row_line; simpl. by rewrite !Z.add_assoc.
Qed.

Lemma report_lines (display_stats : Dict) :
  report display_stats =
  ([EvPrint LHeader; EvPrint LRule]
   ++ (row_line <$> sorted_reverse display_stats)
   ++ [EvPrint LRule;
       EvPrint (LTotal
         (foldr Z.add 0 ((λ x, repos x.2) <$> sorted_reverse display_stats))
         (foldr Z.add 0 ((λ x, stars x.2) <$> sorted_reverse display_stats)))],
   Ret tt)
  ∧ sorted_reverse display_stats ≡ₚ display_stats.
Proof.
  split; [|apply sorted_reverse_perm].
  unfold report. cbn zeta. rewrite report_loop_rows. reflexivity.
Qed.

Lemma report_row_at display_stats (i : nat) a r s :
  trace (report display_stats) !! i = Some (EvPrint (LRow a r s)) →
  ∃ (k : nat) A,
    i = (2 + k)%nat ∧ sorted_reverse display_stats !! k = Some A
    ∧ a = A.1 ∧ r = repos A.2 ∧ s = stars A.2.
Proof.
  destruct (report_lines display_stats) as [-> _]. unfold trace; cbn [fst].
  destruct i as [|[|k]]; [done..|]. intros Hk.
  rewrite (lookup_app_r [EvPrint LHeader; EvPrint LRule]) in Hk
    by (cbn [length]; lia).
  cbn [length Nat.sub] in Hk. rewrite Nat.sub_0_r in Hk. exists k.
  destruct (decide (k < length (row_line <$> sorted_reverse display_stats))%nat)
    as [Hlt|Hge].
  - rewrite lookup_app_l in Hk by done.
    rewrite list_lookup_fmap in Hk.
    destruct (sorted_reverse display_stats !! k) as [A|]; [|done].
    injection Hk as <- <- <-. by exists A.
  - rewrite lookup_app_r in Hk by lia.
    destruct (k - length (row_line <$> sorted_reverse display_stats))%nat
      as [|[|n]]; done.
Qed.

(** C6. The rows the report prints are the items of the mapping, and for
    every two of its rows, [a] printed as line [i] and [b] printed as line
    [j]: more stars in [a] than in [b] puts [a] first, and with equal
    stars the row printed first has at least as many repositories. *)
Theorem rows_sorted_by_stars_then_repos (display_stats : Dict) (i j : nat)
    (a b : str) (ra sa rb sb : Z) :
  trace (report display_stats) !! i = Some (EvPrint (LRow a ra sa)) →
  trace (report display_stats) !! j = Some (EvPrint (LRow b rb sb)) →
  (sa > sb → (i < j)%nat)
  ∧ (sa = sb → (i < j)%nat → ra >= rb)
  ∧ ∃ rows total_repos total_stars,
      rows ≡ₚ display_stats
      ∧ trace (report display_stats) =
        [EvPrint LHeader; EvPrint LRule] ++ (row_line <$> rows)
        ++ [EvPrint LRule; EvPrint (LTotal total_repos total_stars)].
Proof.
  intros (ki & A & -> & HA & -> & -> & ->)%report_row_at
         (kj & B & -> & HB & -> & -> & ->)%report_row_at.
  destruct (sorted_reverse_order display_stats ki kj A B HA HB)
    as (Hperm & Hgt & Heq).
  split; [intros H; specialize (Hgt H); lia|].
  split; [intros H Hlt; apply Heq; [done|lia]|].
  destruct (report_lines display_stats) as [-> _].
  eexists _, _, _. split; [exact Hperm|reflexivity].
Qed.

(** C7. The report is the header, a rule, one row per label in sorted
    order, a rule and the totals row, whose two numbers are the sum of the
    repository counts and the sum of the star counts of the printed rows. *)
Theorem totals_row_sums_the_rows (display_stats : Dict) :
  report display_stats =
  ([EvPrint LHeader; EvPrint LRule]
   ++ (row_line <$> sorted_reverse display_stats)
   ++ [EvPrint LRule;
       EvPrint (LTotal
         (foldr Z.add 0 ((λ x, repos x.2) <$> sorted_reverse display_stats))
         (foldr Z.add 0 ((λ x, stars x.2) <$> sorted_reverse display_stats)))],
   Ret tt)
  ∧ sorted_reverse display_stats ≡ₚ display_stats.
Proof.
  split; [|apply sorted_reverse_perm].
  unfold report. cbn zeta. rewrite report_loop_rows. reflexivity.
Qed.

(** ** The command *)

Lemma fmap_diag_fst {A} (l : list A) : ((λ x, (x, x)) <$> l).*1 = l.
Proof. induction l as [|x l IH]; simpl; [done|]. by f_equal. Qed.

Lemma resolve_input_ret fs args org_data orgs :
  result (resolve_input fs args) = Ret (org_data, orgs) →
  resolve_input fs args = ([], Ret (org_data, orgs)) ∧ orgs = org_data.*1.
Proof.
  unfold resolve_input, read_orgs_from_file, result.
  destruct (truthy (file args)) as [filename|].
  - destruct (fs filename) as [text|]; cbn [bind ret snd]; [|done].
    intros [= <- <-]. done.
  - destruct (organizations args) as [|o os] eqn:Ho; cbn [ret snd]; [done|].
    intros [= <- <-]. split; [done|]. symmetry. exact (fmap_diag_fst (o :: os)).
Qed.

Lemma main_runs fuel srv fs args org_data orgs :
  result (resolve_input fs args) = Ret (org_data, orgs) →
  org_data ≠ [] →
  Forall (λ target, fetch_returns fuel srv (token args) target.1) org_data →
  main fuel srv fs args =
  (fetch_traces fuel srv (token args) org_data
   ++ trace (report (aggregate (fetch_all fuel srv (token args) org_data) [])),
   Ret tt).
Proof.
  intros Hres Hne Hall. apply resolve_input_ret in Hres as [Hres ->].
  unfold main. rewrite Hres. cbn [bind fst snd app].
  destruct org_data as [|[n l] org_data']; [done|]. cbn [fmap list_fmap fst].
  rewrite main_loop_aggregate by done. cbn [bind].
  destruct (report _) as [t o] eqn:Hrep.
  assert (o = Ret tt) as ->.
  { unfold report in Hrep. cbn zeta in Hrep.
    rewrite report_loop_rows in Hrep. by injection Hrep as _ <-. }
  reflexivity.
Qed.

Lemma result_prepend {A} t (m : M A) : result (prepend t m) = result m.
Proof. reflexivity. Qed.

Lemma user_loop_no_exit fuel srv name tok p rc ts code :
  result (user_loop fuel srv name tok p rc ts) ≠ Exit code.
Proof.
  revert p rc ts. induction fuel as [|fuel IH]; intros p rc ts; [done|].
  rewrite user_loop_S, result_prepend. cbn zeta.
  repeat case_match; first [done | apply IH].
Qed.

Lemma org_loop_no_exit fuel srv name tok p rc ts code :
  result (org_loop fuel srv name tok p rc ts) ≠ Exit code.
Proof.
  revert p rc ts. induction fuel as [|fuel IH]; intros p rc ts; [done|].
  rewrite org_loop_S, result_prepend. cbn zeta.
  repeat case_match; first [done | apply user_loop_no_exit | apply IH].
Qed.

Lemma main_loop_no_exit fuel srv tok org_data ds code :
  result (main_loop fuel srv tok org_data ds) ≠ Exit code.
Proof.
  revert ds. induction org_data as [|[n l] org_data IH]; intros ds; [done|].
  cbn [main_loop].
  pose proof (org_loop_no_exit fuel srv n tok 1 0 0) as Hne.
  fold (get_org_stats fuel srv n tok) in Hne.
  destruct (get_org_stats fuel srv n tok) as [t [counts|c|]]; simpl.
  - specialize (IH (dict_add (dict_setdefault ds l) l counts)).
    destruct (main_loop _ _ _ _ _) as [t' o]. exact IH.
  - by destruct (Hne c).
  - done.
Qed.

(** C8, as amended. Without positional identifiers and without a file path
    the command reports a usage error and leaves with status 2. With a file
    path the positional identifiers are ignored. Whenever the command leaves
    with an exit status, the status is not 0 and no request has been sent. *)
Theorem usage_error_without_input fuel srv fs args :
  (organizations args = [] → truthy (file args) = None →
   main fuel srv fs args =
   ([EvUsage (u "Must specify either organization names or --file")], Exit 2))
  ∧ (∀ filename, truthy (file args) = Some filename →
     main fuel srv fs args =
     main fuel srv fs
       {| organizations := []; file := file args; token := token args |})
  ∧ (∀ code, result (main fuel srv fs args) = Exit code →
     code ≠ 0 ∧ ∀ r, EvGet r ∉ trace (main fuel srv fs args)).
Proof.
  split; [|split].
  - intros Ho Hf. unfold main, resolve_input. by rewrite Ho, Hf.
  - intros filename Hf. unfold main, resolve_input. cbn [file token].
    by rewrite Hf.
  - intros code. unfold main.
    destruct (resolve_input fs args) as [t [[org_data orgs]|c|]] eqn:Hres.
    + assert (result (resolve_input fs args) = Ret (org_data, orgs)) as Hr
        by (by rewrite Hres).
      apply resolve_input_ret in Hr as [Hr _]. rewrite Hres in Hr.
      injection Hr as ->. cbn [bind fst snd app].
      destruct orgs as [|o orgs].
      * simpl. intros [= <-]. split; [done|]. intros r Hin.
        apply list_elem_of_singleton in Hin. discriminate Hin.
      * pose proof (main_loop_no_exit fuel srv (token args) org_data []) as Hne.
        destruct (main_loop _ _ _ _ _) as [t' [ds|c|]]; simpl.
        -- unfold report. cbn zeta. rewrite report_loop_rows. simpl. done.
        -- by destruct (Hne c).
        -- done.
    + cbn [bind result snd trace fst]. intros [= ->].
      unfold resolve_input, read_orgs_from_file in Hres.
      destruct (truthy (file args)) as [filename|].
      * destruct (fs filename); simpl in Hres; [done|].
        injection Hres as <- <-. split; [done|]. intros r Hin.
        apply list_elem_of_singleton in Hin. discriminate Hin.
      * destruct (organizations args); simpl in Hres; [|done].
        injection Hres as <- <-. split; [done|]. intros r Hin.
        apply list_elem_of_singleton in Hin. discriminate Hin.
    + done.
Qed.

Lemma dict_get_elem d k v : dict_get d k = Some v → (k, v) ∈ d.
Proof.
  induction d as [|[k0 v0] d IH]; simpl; [done|].
  destruct (decide (k0 = k)) as [->|_].
  - intros [= ->]. apply list_elem_of_here.
  - intros H. apply list_elem_of_further. by apply IH.
Qed.

Lemma report_prints_row ds x : x ∈ ds → row_line x ∈ trace (report ds).
Proof.
  intros Hx. destruct (report_lines ds) as [-> Hp].
  unfold trace; cbn [fst]. rewrite !elem_of_app. right; left.
  apply list_elem_of_fmap_2. by rewrite Hp.
Qed.

Lemma counts_for_target fuel srv tok org_data target :
  target ∈ org_data →
  counts_for target.2 (fetch_all fuel srv tok org_data) ≠ [].
Proof.
  intros Hin. unfold counts_for, fetch_all.
  assert ((target.2, default (0, 0) (fetched_counts fuel srv tok target.1))
          ∈ filter (λ x : str * (Z * Z), x.1 = target.2)
              ((λ t, (t.2, default (0, 0) (fetched_counts fuel srv tok t.1)))
               <$> org_data)) as H.
  { apply list_elem_of_filter. split; [done|].
    by apply (list_elem_of_fmap_2
      (λ t : str * str, (t.2, default (0, 0) (fetched_counts fuel srv tok t.1)))). }
  intros Hnil. apply (list_elem_of_fmap_2 snd) in H. rewrite Hnil in H.
  exact (not_elem_of_nil _ H).
Qed.

(** A target that fetched (0, 0) adds nothing to the totals of its label. *)
Lemma total_without_zero fuel srv tok name label org_data :
  fetched_counts fuel srv tok name = Some (0, 0) →
  total_of (counts_for label (fetch_all fuel srv tok org_data)) =
  total_of (counts_for label
    (fetch_all fuel srv tok (filter (λ target, target.1 ≠ name) org_data))).
Proof.
  intros Hz. induction org_data as [|[n l] org_data IH]; [done|].
  rewrite filter_cons. cbn [fst].
  destruct (decide (n ≠ name)) as [Hn|Hn].
  - unfold fetch_all in *. rewrite !fmap_cons. unfold counts_for in *.
    rewrite !filter_cons. cbn [fst snd].
    destruct (decide (l = label)); [|exact IH].
    rewrite !fmap_cons. unfold total_of in *. rewrite !fmap_cons.
    cbn [foldr]. injection IH as -> ->. reflexivity.
  - apply dec_stable in Hn as ->. rewrite <- IH.
    unfold fetch_all, counts_for. rewrite fmap_cons, filter_cons. cbn [fst snd].
    destruct (decide (l = label)); [|done].
    rewrite Hz. unfold total_of. rewrite !fmap_cons. cbn [foldr default fst snd].
    reflexivity.
Qed.

Lemma counts_for_none fuel srv tok label org_data :
  (∀ target, target ∈ org_data → target.2 ≠ label) →
  counts_for label (fetch_all fuel srv tok org_data) = [].
Proof.
  induction org_data as [|[n l] org_data IH]; intros Hl; [done|].
  unfold fetch_all, counts_for in *. rewrite fmap_cons, filter_cons.
  cbn [fst snd].
  rewrite decide_False by (apply (Hl (n, l)), list_elem_of_here).
  apply IH. intros target Ht. apply Hl. by apply list_elem_of_further.
Qed.

Section NotFoundTwice.
Context (srv : Server) (name : str) (tok : option str).
Context (opages upages : list (list Repo)) (fuel : nat).
Hypothesis org_walk : walks srv (org_request name tok) opages.
Hypothesis org_404 :
  status_code (srv (org_request name tok (1 + len opages))) = 404.
Hypothesis user_walk : walks srv (user_request name tok) upages.
Hypothesis user_404 :
  status_code (srv (user_request name tok (1 + len upages))) = 404.
Hypothesis enough : (S (length opages) + length upages < fuel)%nat.

Lemma not_found_twice :
  get_org_stats fuel srv name tok =
  (page_requests (org_request name tok) 1 (S (length opages)) ++
   page_requests (user_request name tok) 1 (S (length upages)) ++
   [EvPrint (LUserNotFound name)], Ret (0, 0)).
Proof.
  replace fuel with
    (S (length opages) + (S (length upages)
       + (fuel - S (length opages) - S (length upages))))%nat by lia.
  rewrite org_not_found_at, user_not_found_at by done. reflexivity.
Qed.

(** C3, as amended. An identifier answered 404 by the organization listing
    and by the user listing fetches (0, 0) and prints one diagnostic; the
    loop goes on, the command returns (status 0), and the row of every label
    shows the sums fetched for the other targets under that label: the row
    of the failing target is (0, 0) when its label is not shared. *)
Theorem not_found_twice_counts_zero :
  let t := page_requests (org_request name tok) 1 (S (length opages)) ++
           page_requests (user_request name tok) 1 (S (length upages)) ++
           [EvPrint (LUserNotFound name)] in
  get_org_stats fuel srv name tok = (t, Ret (0, 0))
  ∧ goes_on fuel srv tok name t (0, 0)
  ∧ ∀ fs args org_data orgs,
      token args = tok →
      result (resolve_input fs args) = Ret (org_data, orgs) →
      name ∈ orgs →
      Forall (λ target, fetch_returns fuel srv tok target.1) org_data →
      let run := main fuel srv fs args in
      let others := filter (λ target, target.1 ≠ name) org_data in
      let total label :=
        total_of (counts_for label (fetch_all fuel srv tok others)) in
      result run = Ret tt
      ∧ EvPrint (LUserNotFound name) ∈ trace run
      ∧ (∀ target, target ∈ org_data →
           EvPrint (LRow target.2 (repos (total target.2))
                      (stars (total target.2))) ∈ trace run)
      ∧ (∀ label, (name, label) ∈ org_data →
           (∀ other, (other, label) ∈ org_data → other = name) →
           EvPrint (LRow label 0 0) ∈ trace run).
Proof.
  intros t. pose proof not_found_twice as Hf. fold t in Hf.
  split; [exact Hf|]. split.
  { intros label rest ds. by apply main_loop_cons. }
  intros fs args org_data orgs Htok Hres Hname Hall run others total.
  assert (fetched_counts fuel srv tok name = Some (0, 0)) as Hz
    by (unfold fetched_counts; by rewrite Hf).
  pose proof (resolve_input_ret _ _ _ _ Hres) as [_ ->].
  apply list_elem_of_fmap in Hname as [[n l] [-> Hin]]. cbn [fst] in *.
  assert (org_data ≠ []) as Hne by (intros ->; by apply not_elem_of_nil in Hin).
  subst tok.
  assert (run = _) as Hrun
    by (apply (main_runs fuel srv fs args org_data (org_data.*1)); done).
  assert (∀ target, target ∈ org_data →
            EvPrint (LRow target.2 (repos (total target.2))
                       (stars (total target.2))) ∈ trace run) as Hrows.
  { intros target Ht. rewrite Hrun. unfold trace at 1; cbn [fst].
    apply elem_of_app. right.
    apply (report_prints_row _ (target.2, total target.2)).
    apply dict_get_elem. rewrite dict_get_aggregate.
    pose proof (counts_for_target fuel srv (token args) org_data target Ht).
    destruct (counts_for _ _) eqn:Hc; [done|]. rewrite <- Hc.
    unfold total, others.
    rewrite <- (total_without_zero fuel srv (token args) n) by done.
    cbn [dict_get default zero_stats repos stars].
    by destruct (total_of _). }
  split; [by rewrite Hrun|]. split; [|split].
  - rewrite Hrun. unfold trace; cbn [fst]. apply elem_of_app. left.
    unfold fetch_traces. apply list_elem_of_join.
    exists t. split.
    + unfold t. rewrite !elem_of_app. right; right. apply list_elem_of_here.
    + apply list_elem_of_fmap. exists (n, l). split; [|done].
      cbn [fst]. by rewrite Hf.
  - exact Hrows.
  - intros label Hl Hunshared.
    specialize (Hrows (n, label) Hl). cbn [snd] in Hrows.
    assert (total label = zero_stats) as Ht; [|by rewrite Ht in Hrows].
    unfold total, others.
    rewrite counts_for_none; [done|].
    intros [n0 l0] [Hn0 Hin0]%list_elem_of_filter Hl0. cbn [fst snd] in *.
    subst l0. by apply Hn0, Hunshared.
Qed.
End NotFoundTwice.

(** ** The properties on the mocked server *)

Lemma fetch_counts_every_page_witness :
  get_org_stats 3 demo_server (u "acme") None =
    (page_requests (org_request (u "acme") None) 1 3, Ret (3, 12))
  ∧ get_user_stats 3 demo_server (u "acme") None =
    (page_requests (user_request (u "acme") None) 1 3, Ret (3, 12)).
Proof.
  destruct (fetch_counts_every_page demo_server (u "acme") None acme_pages 3)
    as [Horg Huser]; [simpl; lia|].
  split; [apply Horg|apply Huser];
    (split; [split; [repeat constructor; discriminate|]|]; vm_compute;
     reflexivity).
Defined.

Lemma org_not_found_tries_user_witness :
  get_org_stats 3 demo_server (u "bob") None =
    prepend [EvGet (org_request (u "bob") None 1)]
      (get_user_stats 2 demo_server (u "bob") None)
  ∧ result (get_org_stats 3 demo_server (u "bob") None) = Ret (1, 1).
Proof.
  destruct (org_not_found_tries_user demo_server (u "bob") None 2)
    as (Heq & _ & _ & Hpages); [vm_compute; reflexivity|lia|].
  split; [exact Heq|].
  apply (Hpages [[starred 1]]); [|simpl; lia].
  split; [split; [repeat constructor; discriminate|]|]; vm_compute;
    reflexivity.
Defined.

Lemma late_not_found_discards_org_pages_witness :
  result (get_org_stats 5 demo_server (u "late") None) = Ret (2, 4).
Proof.
  destruct (late_not_found_discards_org_pages demo_server (u "late") None
              [[starred 9]] 5) as (_ & _ & Hpages).
  - discriminate.
  - split; [repeat constructor; discriminate|vm_compute; reflexivity].
  - vm_compute; reflexivity.
  - simpl; lia.
  - apply (Hpages [[starred 2; starred 2]]); [|simpl; lia].
    split; [split; [repeat constructor; discriminate|]|]; vm_compute;
      reflexivity.
Defined.

Lemma error_status_aborts_fetch_witness :
  get_org_stats 3 demo_server (u "flaky") None =
  (page_requests (org_request (u "flaky") None) 1 2 ++
   [EvPrint (LErrorFetching (u "flaky") 500)], Ret (0, 0)).
Proof.
  destruct (error_status_aborts_fetch demo_server (u "flaky") None
              [[starred 7]] [] 500 3) as (Horg & _ & _); [lia|lia|].
  apply Horg.
  - simpl; lia.
  - split; [repeat constructor; discriminate|vm_compute; reflexivity].
  - vm_compute; reflexivity.
Defined.

Lemma not_found_twice_counts_zero_witness :
  get_org_stats 3 demo_server (u "ghost") None =
    ([EvGet (org_request (u "ghost") None 1);
      EvGet (user_request (u "ghost") None 1);
      EvPrint (LUserNotFound (u "ghost"))], Ret (0, 0))
  ∧ result (main 3 demo_server demo_files
              {| organizations := [u "ghost"; u "acme"];
                 file := None; token := None |}) = Ret tt
  ∧ EvPrint (LRow (u "ghost") 0 0)
    ∈ trace (main 3 demo_server demo_files
               {| organizations := [u "ghost"; u "acme"];
                  file := None; token := None |}).
Proof.
  destruct (not_found_twice_counts_zero demo_server (u "ghost") None [] [] 3)
    as (Hfetch & _ & Hmain).
  - split; [constructor|reflexivity].
  - vm_compute; reflexivity.
  - split; [constructor|reflexivity].
  - vm_compute; reflexivity.
  - simpl; lia.
  - split; [exact Hfetch|].
    destruct (Hmain demo_files
                {| organizations := [u "ghost"; u "acme"];
                   file := None; token := None |}
                [(u "ghost", u "ghost"); (u "acme", u "acme")]
                [u "ghost"; u "acme"])
      as (Hexit & _ & _ & Hrow).
    + reflexivity.
    + reflexivity.
    + apply list_elem_of_here.
    + repeat constructor; vm_compute; eexists; reflexivity.
    + split; [exact Hexit|]. apply (Hrow (u "ghost")).
      * apply list_elem_of_here.
      * intros other [Heq|Hin]%elem_of_cons; [by injection Heq|].
        apply elem_of_cons in Hin as [Heq|Hin]; [discriminate Heq|].
        by apply elem_of_nil in Hin.
Defined.

Lemma aggregation_is_order_independent_witness :
  ∃ ds ds',
    result (main_loop 3 demo_server None
              [(u "acme", u "Acme"); (u "bob", u "Acme")] []) = Ret ds
    ∧ result (main_loop 3 demo_server None
                [(u "bob", u "Acme"); (u "acme", u "Acme")] []) = Ret ds'
    ∧ to_map ds = to_map ds'
    ∧ to_map ds !! u "Acme" = Some {| repos := 4; stars := 13 |}.
Proof.
  destruct (aggregation_is_order_independent 3 demo_server None
              [(u "acme", u "Acme"); (u "bob", u "Acme")]
              [(u "bob", u "Acme"); (u "acme", u "Acme")])
    as [(ds & ds' & Hds & Hds' & Hmap & Hlabel) _].
  - apply Permutation_swap.
  - repeat constructor; vm_compute; eexists; reflexivity.
  - exists ds, ds'. split; [exact Hds|]. split; [exact Hds'|].
    split; [exact Hmap|]. rewrite Hlabel. vm_compute. reflexivity.
Defined.

Lemma rows_sorted_by_stars_then_repos_witness :
  trace (report demo_stats) !! 2%nat = Some (EvPrint (LRow (u "b") 3 9))
  ∧ trace (report demo_stats) !! 3%nat = Some (EvPrint (LRow (u "c") 2 5))
  ∧ trace (report demo_stats) !! 4%nat = Some (EvPrint (LRow (u "a") 1 5))
  ∧ (9 > 5 → (2 < 3)%nat)
  ∧ (5 = 5 → (3 < 4)%nat → 2 >= 1).
Proof.
  split; [vm_compute; reflexivity|].
  split; [vm_compute; reflexivity|].
  split; [vm_compute; reflexivity|].
  split.
  - apply (rows_sorted_by_stars_then_repos demo_stats 2 3
             (u "b") (u "c") 3 9 2 5); vm_compute; reflexivity.
  - apply (rows_sorted_by_stars_then_repos demo_stats 3 4
             (u "c") (u "a") 2 5 1 5); vm_compute; reflexivity.
Defined.

Lemma usage_error_without_input_witness :
  main 3 demo_server demo_files
    {| organizations := []; file := None; token := None |} =
  ([EvUsage (u "Must specify either organization names or --file")], Exit 2).
Proof.
  apply (usage_error_without_input 3 demo_server demo_files
           {| organizations := []; file := None; token := None |});
    reflexivity.
Defined.

(** C8, as stated, fails when both are supplied: the file is read, the
    positional identifiers are ignored and the run ends with status 0. *)
Lemma both_inputs_are_accepted :
  ¬ (∀ fuel srv fs args,
       (organizations args = [] ∧ file args = None)
       ∨ (organizations args ≠ [] ∧ is_Some (file args)) →
       (∃ message, EvUsage message ∈ trace (main fuel srv fs args))
       ∧ (∃ code, code ≠ 0 ∧ result (main fuel srv fs args) = Exit code)
       ∧ ∀ r, EvGet r ∉ trace (main fuel srv fs args)).
Proof.
  intros H.
  destruct (H 3%nat demo_server demo_files
              {| organizations := [u "bob"]; file := Some (u "one.tsv");
                 token := None |}) as (_ & (code & _ & Hexit) & _).
  - right. split; [discriminate|]. by eexists.
  - vm_compute in Hexit. discriminate Hexit.
Qed.

(** C3, as stated, fails when the label of the failing target is shared:
    the row of the label shows what the other targets fetched. *)
Lemma shared_label_row_is_not_zero :
  ¬ (∀ fuel srv fs args org_data orgs name label,
       result (resolve_input fs args) = Ret (org_data, orgs) →
       (name, label) ∈ org_data →
       status_code (srv (org_request name (token args) 1)) = 404 →
       status_code (srv (user_request name (token args) 1)) = 404 →
       Forall (λ target, fetch_returns fuel srv (token args) target.1)
         org_data →
       result (get_org_stats fuel srv name (token args)) = Ret (0, 0)
       ∧ result (main fuel srv fs args) = Ret tt
       ∧ EvPrint (LUserNotFound name) ∈ trace (main fuel srv fs args)
       ∧ EvPrint (LRow label 0 0) ∈ trace (main fuel srv fs args)).
Proof.
  intros H.
  destruct (H 3%nat demo_server demo_files
              {| organizations := []; file := Some (u "shared.tsv");
                 token := None |}
              [(u "ghost", u "Acme"); (u "acme", u "Acme")]
              [u "ghost"; u "acme"] (u "ghost") (u "Acme"))
    as (_ & _ & _ & Hrow).
  - vm_compute. reflexivity.
  - apply list_elem_of_here.
  - vm_compute. reflexivity.
  - vm_compute. reflexivity.
  - repeat constructor; vm_compute; eexists; reflexivity.
  - apply (bool_decide_pack _) in Hrow. vm_compute in Hrow. exact Hrow.
Qed.

(** ** The shape of a fetch *)

Lemma trace_prepend {A} t (m : M A) : trace (prepend t m) = t ++ trace m.
Proof. reflexivity. Qed.

Lemma elem_of_page_requests req p n r :
  EvGet r ∈ page_requests req p n ↔ ∃ i : nat, (i < n)%nat ∧ r = req (p + Z.of_nat i).
Proof.
  unfold page_requests. rewrite list_elem_of_fmap. split.
  - intros (i & [= ->] & Hi). apply elem_of_seq in Hi. exists i. split; [lia|done].
  - intros (i & Hi & ->). exists i. split; [done|]. apply elem_of_seq. lia.
Qed.

Section Shape.
Context (srv : Server) (name : str) (tok : option str).

Lemma user_loop_shape fuel p rc ts :
  ∃ (j : nat) (diag : list event),
    trace (user_loop fuel srv name tok p rc ts) =
      page_requests (user_request name tok) p j ++ diag
    ∧ (j ≤ fuel)%nat
    ∧ (diag = [] ∨
       ∃ l, diag = [EvPrint l]
            ∧ result (user_loop fuel srv name tok p rc ts) = Ret (0, 0)).
Proof.
  revert p rc ts. induction fuel as [|fuel IH]; intros p rc ts.
  { exists 0%nat, []. repeat split; auto. }
  rewrite user_loop_S, trace_prepend, result_prepend. cbn zeta.
  destruct (status_code (srv (user_request name tok p)) =? 404).
  { exists 1%nat, [EvPrint (LUserNotFound name)].
    rewrite page_requests_S. repeat split; [lia|]. right. by eexists. }
  destruct (negb (status_code (srv (user_request name tok p)) =? 200)).
  { exists 1%nat,
      [EvPrint (LErrorFetching name
                  (status_code (srv (user_request name tok p))))].
    rewrite page_requests_S. repeat split; [lia|]. right. by eexists. }
  destruct (json (srv (user_request name tok p))) as [|r0 repos].
  { exists 1%nat, []. rewrite page_requests_S. repeat split; [lia|by left]. }
  destruct (IH (p + 1) (rc + len (r0 :: repos))
              (ts + sum_stars (r0 :: repos))) as (j & diag & Ht & Hj & Hd).
  exists (S j), diag. rewrite page_requests_S, Ht. repeat split; [lia|done].
Qed.

Lemma org_loop_shape fuel p rc ts :
  ∃ (k j : nat) (diag : list event),
    trace (org_loop fuel srv name tok p rc ts) =
      page_requests (org_request name tok) p k
      ++ page_requests (user_request name tok) 1 j ++ diag
    ∧ (k + j ≤ fuel)%nat
    ∧ (diag = [] ∨
       ∃ l, diag = [EvPrint l]
            ∧ result (org_loop fuel srv name tok p rc ts) = Ret (0, 0))
    ∧ ((0 < j)%nat →
       status_code (srv (org_request name tok (p + Z.of_nat k - 1))) = 404).
Proof.
  revert p rc ts. induction fuel as [|fuel IH]; intros p rc ts.
  { exists 0%nat, 0%nat, []. repeat split; auto. lia. }
  rewrite org_loop_S, trace_prepend, result_prepend. cbn zeta.
  destruct (Z.eqb_spec (status_code (srv (org_request name tok p))) 404)
    as [H404|_].
  { destruct (user_loop_shape fuel 1 0 0) as (j & diag & Ht & Hj & Hd).
    exists 1%nat, j, diag. rewrite page_requests_S. unfold get_user_stats.
    rewrite Ht. repeat split; [lia|done|].
    intros _. by replace (p + Z.of_nat 1 - 1) with p by lia. }
  destruct (negb (status_code (srv (org_request name tok p)) =? 200)).
  { exists 1%nat, 0%nat,
      [EvPrint (LErrorFetching name
                  (status_code (srv (org_request name tok p))))].
    rewrite page_requests_S. repeat split; [lia| |lia]. right. by eexists. }
  destruct (json (srv (org_request name tok p))) as [|r0 repos].
  { exists 1%nat, 0%nat, []. rewrite page_requests_S.
    repeat split; [lia|by left|lia]. }
  destruct (IH (p + 1) (rc + len (r0 :: repos))
              (ts + sum_stars (r0 :: repos)))
    as (k & j & diag & Ht & Hj & Hd & H404).
  exists (S k), j, diag. rewrite page_requests_S, Ht.
  repeat split; [lia|done|].
  intros Hpos. rewrite <- (H404 Hpos).
  by replace (p + Z.of_nat (S k) - 1) with (p + 1 + Z.of_nat k - 1) by lia.
Qed.

End Shape.

(** ** The requests of the command *)

Lemma elem_of_trace_bind {A B} (m : M A) (k : A → M B) e :
  e ∈ trace (bind m k) →
  e ∈ trace m ∨ ∃ a, result m = Ret a ∧ e ∈ trace (k a).
Proof.
  destruct m as [t [a|c|]]; unfold bind, trace, result; cbn [fst snd];
    [|by left..].
  destruct (k a) as [t' o] eqn:Hk. cbn [fst].
  intros [?|?]%elem_of_app; [by left|].
  right. exists a. by rewrite Hk.
Qed.

Lemma fetch_requests fuel srv name tok r :
  EvGet r ∈ trace (get_org_stats fuel srv name tok) →
  ∃ p, 1 <= p ∧ (r = org_request name tok p ∨ r = user_request name tok p).
Proof.
  destruct (org_loop_shape srv name tok fuel 1 0 0)
    as (k & j & diag & Ht & _ & Hd & _).
  unfold get_org_stats. rewrite Ht, !elem_of_app.
  intros [Hin|[Hin|Hin]].
  - apply elem_of_page_requests in Hin as (i & _ & ->). eexists.
    split; [|by left]. lia.
  - apply elem_of_page_requests in Hin as (i & _ & ->). eexists.
    split; [|by right]. lia.
  - destruct Hd as [->|(l & -> & _)].
    + by apply elem_of_nil in Hin.
    + apply list_elem_of_singleton in Hin. discriminate Hin.
Qed.

Lemma main_loop_requests fuel srv tok org_data ds r :
  EvGet r ∈ trace (main_loop fuel srv tok org_data ds) →
  ∃ target, target ∈ org_data
            ∧ EvGet r ∈ trace (get_org_stats fuel srv target.1 tok).
Proof.
  revert ds. induction org_data as [|[n l] org_data IH]; intros ds.
  - intros Hin. by apply elem_of_nil in Hin.
  - cbn [main_loop]. intros [Hin|(counts & _ & Hin)]%elem_of_trace_bind.
    + exists (n, l). split; [apply list_elem_of_here|done].
    + destruct (IH _ Hin) as (target & Ht & Hr).
      exists target. split; [by apply list_elem_of_further|done].
Qed.

Lemma report_no_request ds r : EvGet r ∉ trace (report ds).
Proof.
  destruct (report_lines ds) as [-> _]. unfold trace; cbn [fst].
  rewrite !elem_of_app, list_elem_of_fmap, !elem_of_cons, elem_of_nil.
  intros [[?|[?|?]]|[(x & ? & _)|[?|[?|?]]]]; done.
Qed.

Lemma make_headers_authorization tok v :
  (u "Authorization", v) ∈ make_headers tok ↔
  ∃ t, truthy tok = Some t ∧ v = u "token " ++ t.
Proof.
  unfold make_headers. destruct (truthy tok) as [t|].
  - rewrite elem_of_app, !list_elem_of_singleton. split.
    + intros [[=]|[= ->]]. by exists t.
    + intros (t' & [= <-] & ->). by right.
  - rewrite list_elem_of_singleton. split; [intros [=]|intros (? & [=] & _)].
Qed.

Lemma make_headers_accept tok :
  (u "Accept", u "application/vnd.github.v3+json") ∈ make_headers tok.
Proof.
  unfold make_headers. destruct (truthy tok); [apply elem_of_app; left|];
    apply list_elem_of_here.
Qed.

(** X2. Every request the command sends is a page request, for a page from
    1 on, of the organization or user listing of one of its targets, with
    100 items a page and type all. It carries the Accept header, and an
    Authorization header exactly when a non-empty token was given, with the
    value "token " followed by it. *)
Theorem command_requests fuel srv fs args r :
  EvGet r ∈ trace (main fuel srv fs args) →
  (∃ org_data orgs identifier p,
     result (resolve_input fs args) = Ret (org_data, orgs)
     ∧ identifier ∈ orgs ∧ 1 <= p
     ∧ (r = org_request identifier (token args) p
        ∨ r = user_request identifier (token args) p))
  ∧ per_page (params r) = 100
  ∧ type (params r) = u "all"
  ∧ (u "Accept", u "application/vnd.github.v3+json") ∈ headers r
  ∧ ∀ v, (u "Authorization", v) ∈ headers r ↔
         ∃ t, truthy (token args) = Some t ∧ v = u "token " ++ t.
Proof.
  intros Hin.
  assert (∃ org_data orgs identifier p,
     result (resolve_input fs args) = Ret (org_data, orgs)
     ∧ identifier ∈ orgs ∧ 1 <= p
     ∧ (r = org_request identifier (token args) p
        ∨ r = user_request identifier (token args) p)) as Hreq.
  { unfold main in Hin.
    apply elem_of_trace_bind in Hin as [Hin|([org_data orgs] & Hres & Hin)].
    - destruct (resolve_input fs args) as [t [[od os]|c|]] eqn:Hri.
      + assert (result (resolve_input fs args) = Ret (od, os)) as Hr
          by (by rewrite Hri).
        apply resolve_input_ret in Hr as [Hr _]. rewrite Hri in Hr.
        injection Hr as ->. by apply elem_of_nil in Hin.
      + exfalso. revert Hri Hin. unfold resolve_input, read_orgs_from_file.
        destruct (truthy (file args)) as [filename|].
        * destruct (fs filename); [done|]. intros [= <- _].
          intros Hin%list_elem_of_singleton. discriminate Hin.
        * destruct (organizations args); [|done]. intros [= <- _].
          intros Hin%list_elem_of_singleton. discriminate Hin.
      + exfalso. revert Hri. unfold resolve_input, read_orgs_from_file.
        destruct (truthy (file args)) as [filename|].
        * by destruct (fs filename).
        * by destruct (organizations args).
    - pose proof (resolve_input_ret _ _ _ _ Hres) as [_ Horgs].
      cbn [fst snd] in Hin. destruct orgs as [|o orgs'].
      { apply elem_of_cons in Hin as [Hin|Hin]; [discriminate Hin|].
        by apply elem_of_nil in Hin. }
      apply elem_of_trace_bind in Hin as [Hin|(ds & _ & Hin)].
      + apply main_loop_requests in Hin as ([n l] & Ht & Hr).
        apply fetch_requests in Hr as (p & Hp & Hr). cbn [fst] in Hr.
        exists org_data, (o :: orgs'), n, p. repeat split; try done.
        rewrite Horgs. by apply (list_elem_of_fmap_2 fst) in Ht.
      + by apply report_no_request in Hin. }
  split; [exact Hreq|].
  destruct Hreq as (_ & _ & identifier & p & _ & _ & _ & [->| ->]);
    (split; [reflexivity|]; split; [reflexivity|];
     split; [apply make_headers_accept|];
     intros v; apply make_headers_authorization).
Qed.

Section Endless.
Context (srv : Server) (name : str) (tok : option str).

Lemma user_loop_endless fuel p rc ts :
  (∀ q, p <= q →
     status_code (srv (user_request name tok q)) = 200
     ∧ json (srv (user_request name tok q)) ≠ []) →
  user_loop fuel srv name tok p rc ts =
  (page_requests (user_request name tok) p fuel, Spent).
Proof.
  revert p rc ts. induction fuel as [|fuel IH]; intros p rc ts Hsrv; [done|].
  rewrite user_loop_S, page_requests_S. cbn zeta.
  destruct (Hsrv p) as [H200 Hne]; [lia|]. rewrite H200. cbn [Z.eqb Pos.eqb negb].
  destruct (json (srv (user_request name tok p))) as [|r0 repos] eqn:Hj; [done|].
  rewrite IH; [done|]. intros q Hq. apply Hsrv. lia.
Qed.

Lemma org_loop_endless fuel p rc ts :
  (∀ q, p <= q →
     status_code (srv (org_request name tok q)) = 200
     ∧ json (srv (org_request name tok q)) ≠ []) →
  org_loop fuel srv name tok p rc ts =
  (page_requests (org_request name tok) p fuel, Spent).
Proof.
  revert p rc ts. induction fuel as [|fuel IH]; intros p rc ts Hsrv; [done|].
  rewrite org_loop_S, page_requests_S. cbn zeta.
  destruct (Hsrv p) as [H200 Hne]; [lia|]. rewrite H200. cbn [Z.eqb Pos.eqb negb].
  destruct (json (srv (org_request name tok p))) as [|r0 repos] eqn:Hj; [done|].
  rewrite IH; [done|]. intros q Hq. apply Hsrv. lia.
Qed.

(** X3. Neither loop has a limit on the pages: while every page comes with
    status 200 and at least one item, the fetch goes on asking for the next
    page and does not return, whatever the budget. *)
Theorem fetch_has_no_page_limit fuel :
  ((∀ q, 1 <= q →
      status_code (srv (org_request name tok q)) = 200
      ∧ json (srv (org_request name tok q)) ≠ []) →
   get_org_stats fuel srv name tok =
   (page_requests (org_request name tok) 1 fuel, Spent))
  ∧
  ((∀ q, 1 <= q →
      status_code (srv (user_request name tok q)) = 200
      ∧ json (srv (user_request name tok q)) ≠ []) →
   get_user_stats fuel srv name tok =
   (page_requests (user_request name tok) 1 fuel, Spent)).
Proof. split; intros Hsrv; [by apply org_loop_endless|by apply user_loop_endless]. Qed.

Lemma sum_stars_cons r0 repos :
  sum_stars (r0 :: repos) = stargazers_count r0 + sum_stars repos.
Proof. exact (sum_stars_app [r0] repos). Qed.

Lemma sum_stars_nonneg repos :
  Forall (λ repo, 0 <= stargazers_count repo) repos → 0 <= sum_stars repos.
Proof.
  induction 1 as [|r0 repos H0 _ IH]; [done|]. rewrite sum_stars_cons. lia.
Qed.

Lemma user_loop_nonneg fuel p rc ts r s :
  result (user_loop fuel srv name tok p rc ts) = Ret (r, s) →
  (0 <= rc → 0 <= r)
  ∧ ((∀ req, Forall (λ repo, 0 <= stargazers_count repo) (json (srv req))) →
     0 <= ts → 0 <= s).
Proof.
  revert p rc ts. induction fuel as [|fuel IH]; intros p rc ts; [done|].
  rewrite user_loop_S, result_prepend. cbn zeta.
  destruct (status_code (srv (user_request name tok p)) =? 404).
  { intros [= <- <-]. split; intros; lia. }
  destruct (negb (status_code (srv (user_request name tok p)) =? 200)).
  { intros [= <- <-]. split; intros; lia. }
  destruct (json (srv (user_request name tok p))) as [|r0 repos] eqn:Hj.
  { intros [= <- <-]. split; intros; done. }
  intros Hr. destruct (IH _ _ _ Hr) as [Hc Hs]. split.
  - intros Hrc. apply Hc. unfold len. lia.
  - intros Hsrv Hts. apply Hs; [done|].
    pose proof (sum_stars_nonneg _ (Hsrv (user_request name tok p))) as H.
    rewrite Hj in H. lia.
Qed.

Lemma org_loop_nonneg fuel p rc ts r s :
  result (org_loop fuel srv name tok p rc ts) = Ret (r, s) →
  (0 <= rc → 0 <= r)
  ∧ ((∀ req, Forall (λ repo, 0 <= stargazers_count repo) (json (srv req))) →
     0 <= ts → 0 <= s).
Proof.
  revert p rc ts. induction fuel as [|fuel IH]; intros p rc ts; [done|].
  rewrite org_loop_S, result_prepend. cbn zeta.
  destruct (status_code (srv (org_request name tok p)) =? 404).
  { intros Hr. destruct (user_loop_nonneg _ _ _ _ _ _ Hr) as [Hc Hs].
    split; intros; [apply Hc|apply Hs]; done. }
  destruct (negb (status_code (srv (org_request name tok p)) =? 200)).
  { intros [= <- <-]. split; intros; lia. }
  destruct (json (srv (org_request name tok p))) as [|r0 repos] eqn:Hj.
  { intros [= <- <-]. split; intros; done. }
  intros Hr. destruct (IH _ _ _ Hr) as [Hc Hs]. split.
  - intros Hrc. apply Hc. unfold len. lia.
  - intros Hsrv Hts. apply Hs; [done|].
    pose proof (sum_stars_nonneg _ (Hsrv (org_request name tok p))) as H.
    rewrite Hj in H. lia.
Qed.

(** X4. A repository count returned by a fetch is never negative, and the
    star total is not negative either when no item of a response has a
    negative star count. *)
Theorem fetched_counts_are_not_negative fuel r s :
  result (get_org_stats fuel srv name tok) = Ret (r, s) →
  0 <= r
  ∧ ((∀ req, Forall (λ repo, 0 <= stargazers_count repo) (json (srv req))) →
     0 <= s).
Proof.
  intros Hr. destruct (org_loop_nonneg _ _ _ _ _ _ Hr) as [Hc Hs].
  split; [by apply Hc|]. intros Hsrv. by apply Hs.
Qed.
End Endless.

Lemma paged_json (Q : Repo → Prop) pages after p :
  Forall (Forall Q) pages → Forall Q (json after) →
  Forall Q (json (paged pages after p)).
Proof.
  intros Hpages Hafter. unfold paged. case_match; [|done]. cbn [json ok_page].
  destruct (pages !! Z.to_nat (p - 1)) as [pg|] eqn:Hpg; [|constructor].
  by apply (Forall_lookup_1 _ _ _ _ Hpages Hpg).
Qed.

Lemma fetch_has_no_page_limit_witness :
  get_org_stats 4 endless_server (u "acme") None =
    (page_requests (org_request (u "acme") None) 1 4, Spent)
  ∧ get_user_stats 4 endless_server (u "acme") None =
    (page_requests (user_request (u "acme") None) 1 4, Spent).
Proof.
  destruct (fetch_has_no_page_limit endless_server (u "acme") None 4)
    as [Horg Huser].
  split; [apply Horg|apply Huser];
    (intros q _; split; [reflexivity|discriminate]).
Defined.

Lemma fetched_counts_are_not_negative_witness :
  0 <= 3 ∧ 0 <= 12.
Proof.
  destruct (fetched_counts_are_not_negative demo_server (u "acme") None 3 3 12)
    as [Hr Hs]; [vm_compute; reflexivity|].
  split; [exact Hr|]. apply Hs. intros req. unfold demo_server.
  repeat case_decide; try apply paged_json; repeat constructor; simpl; lia.
Defined.

(** ** What a fetch returns *)

Lemma response_ok r :
  status_code r = 200 → r = ok_page (json r).
Proof. destruct r as [st js]. cbn. by intros ->. Qed.

Lemma walks_of_lookup srv req pages :
  Forall (λ pg, pg ≠ []) pages →
  (∀ (i : nat) pg, pages !! i = Some pg →
     srv (req (1 + Z.of_nat i)) = ok_page pg) →
  walks srv req pages.
Proof.
  intros Hne Hsrv. split; [done|]. apply list_eq. intros i.
  unfold responses. rewrite !list_lookup_fmap.
  destruct (pages !! i) as [pg|] eqn:Hi.
  - rewrite lookup_seq_lt by (by eapply lookup_lt_Some). cbn.
    f_equal. by apply Hsrv.
  - rewrite lookup_seq_ge by (by apply lookup_ge_None). done.
Qed.

Section Returns.
Context (srv : Server) (name : str) (tok : option str).

Lemma user_loop_returns fuel p rc ts t c :
  user_loop fuel srv name tok p rc ts = (t, Ret c) →
  (c = (0, 0) ∧ ∃ l, last t = Some (EvPrint l))
  ∨ ∃ pages,
      Forall (λ pg, pg ≠ []) pages
      ∧ (∀ (i : nat) pg, pages !! i = Some pg →
           srv (user_request name tok (p + Z.of_nat i)) = ok_page pg)
      ∧ srv (user_request name tok (p + len pages)) = ok_page []
      ∧ c = (rc + len (concat pages), ts + sum_stars (concat pages))
      ∧ t = page_requests (user_request name tok) p (S (length pages)).
Proof.
  revert p rc ts t. induction fuel as [|fuel IH]; intros p rc ts t; [done|].
  rewrite user_loop_S. cbn zeta.
  destruct (Z.eqb_spec (status_code (srv (user_request name tok p))) 404).
  { intros [= <- <-]. left. split; [done|]. by eexists. }
  destruct (Z.eqb_spec (status_code (srv (user_request name tok p))) 200)
    as [H200|]; cbn [negb].
  2:{ intros [= <- <-]. left. split; [done|]. by eexists. }
  apply response_ok in H200.
  destruct (json (srv (user_request name tok p))) as [|r0 repos] eqn:Hj.
  { intros [= <- <-]. right. exists []. unfold len. cbn.
    rewrite !Z.add_0_r. repeat split; try done.
    all: first [by (intros i pg; rewrite lookup_nil)|by rewrite page_requests_S]. }
  destruct (user_loop fuel srv name tok (p + 1) (rc + len (r0 :: repos))
              (ts + sum_stars (r0 :: repos))) as [t' o] eqn:Hl.
  unfold prepend; cbn [fst snd]. intros [= <- ->].
  destruct (IH _ _ _ _ Hl) as [[-> (l & Hlast)]|(pages & Hne & Hsrv & Hend & -> & ->)].
  - left. split; [done|]. exists l. cbn [app].
    destruct t'; [done|]. by rewrite last_cons_cons.
  - right. exists ((r0 :: repos) :: pages). repeat split.
    + by constructor.
    + intros [|i] pg; cbn.
      * intros [= <-]. by rewrite Z.add_0_r.
      * intros Hi. rewrite <- (Hsrv i pg Hi). do 2 f_equal. lia.
    + rewrite <- Hend. do 2 f_equal. unfold len. cbn [length]. lia.
    + cbn [concat]. rewrite len_app, sum_stars_app. f_equal; lia.
    + cbn [length app]. by rewrite (page_requests_S _ p).
Qed.

Lemma org_loop_returns fuel p rc ts t c :
  org_loop fuel srv name tok p rc ts = (t, Ret c) →
  (c = (0, 0) ∧ ∃ l, last t = Some (EvPrint l))
  ∨ (∃ pages,
      Forall (λ pg, pg ≠ []) pages
      ∧ (∀ (i : nat) pg, pages !! i = Some pg →
           srv (org_request name tok (p + Z.of_nat i)) = ok_page pg)
      ∧ srv (org_request name tok (p + len pages)) = ok_page []
      ∧ c = (rc + len (concat pages), ts + sum_stars (concat pages)))
  ∨ (∃ upages,
      serves srv (user_request name tok) upages
      ∧ c = (len (concat upages), sum_stars (concat upages))).
Proof.
  revert p rc ts t. induction fuel as [|fuel IH]; intros p rc ts t; [done|].
  rewrite org_loop_S. cbn zeta.
  destruct (Z.eqb_spec (status_code (srv (org_request name tok p))) 404).
  { destruct (get_user_stats fuel srv name tok) as [t' o] eqn:Hu.
    unfold prepend; cbn [fst snd]. intros [= <- ->].
    destruct (user_loop_returns _ _ _ _ _ _ Hu)
      as [[-> (l & Hlast)]|(pages & Hne & Hsrv & Hend & -> & ->)].
    - left. split; [done|]. exists l. cbn [app].
      destruct t'; [done|]. by rewrite last_cons_cons.
    - right; right. exists pages. split; [|by rewrite !Z.add_0_l].
      split; [by apply walks_of_lookup|done]. }
  destruct (Z.eqb_spec (status_code (srv (org_request name tok p))) 200)
    as [H200|]; cbn [negb].
  2:{ intros [= <- <-]. left. split; [done|]. by eexists. }
  apply response_ok in H200.
  destruct (json (srv (org_request name tok p))) as [|r0 repos] eqn:Hj.
  { intros [= <- <-]. right; left. exists []. unfold len. cbn.
    rewrite !Z.add_0_r. repeat split; try done.
    all: by (intros i pg; rewrite lookup_nil). }
  destruct (org_loop fuel srv name tok (p + 1) (rc + len (r0 :: repos))
              (ts + sum_stars (r0 :: repos))) as [t' o] eqn:Hl.
  unfold prepend; cbn [fst snd]. intros [= <- ->].
  destruct (IH _ _ _ _ Hl)
    as [[-> (l & Hlast)]|[(pages & Hne & Hsrv & Hend & ->)|Huser]].
  - left. split; [done|]. exists l. cbn [app].
    destruct t'; [done|]. by rewrite last_cons_cons.
  - right; left. exists ((r0 :: repos) :: pages). repeat split.
    + by constructor.
    + intros [|i] pg; cbn.
      * intros [= <-]. by rewrite Z.add_0_r.
      * intros Hi. rewrite <- (Hsrv i pg Hi). do 2 f_equal. lia.
    + rewrite <- Hend. do 2 f_equal. unfold len. cbn [length]. lia.
    + cbn [concat]. rewrite len_app, sum_stars_app. f_equal; lia.
  - by right; right.
Qed.

(** X13. A fetch never returns the counts of a part of a listing. When it
    returns, either it has printed a diagnostic last and the result is
    (0, 0), or the result is the number of items and the star sum of the
    whole organization listing, served in pages up to its first empty page,
    or those of the whole user listing. *)
Theorem fetch_never_returns_part_of_a_listing fuel t c :
  get_org_stats fuel srv name tok = (t, Ret c) →
  (c = (0, 0) ∧ ∃ l, last t = Some (EvPrint l))
  ∨ (∃ pages, serves srv (org_request name tok) pages
              ∧ c = (len (concat pages), sum_stars (concat pages)))
  ∨ (∃ upages, serves srv (user_request name tok) upages
               ∧ c = (len (concat upages), sum_stars (concat upages))).
Proof.
  intros Hf. destruct (org_loop_returns _ _ _ _ _ _ Hf)
    as [?|[(pages & Hne & Hsrv & Hend & ->)|?]]; [by left| |by right; right].
  right; left. exists pages. split; [|by rewrite !Z.add_0_l].
  split; [by apply walks_of_lookup|done].
Qed.
End Returns.

(** ** More on the input file *)

Lemma lstrip_all_space s : Forall (λ c, isspace c = true) s → lstrip s = [].
Proof. induction 1 as [|c s Hc _ IH]; simpl; [done|]. by rewrite Hc. Qed.

Lemma lstrip_app s w :
  lstrip (s ++ w) = match lstrip s with [] => lstrip w | _ :: _ => lstrip s ++ w end.
Proof.
  induction s as [|c s IH]; simpl; [done|].
  destruct (isspace c); [exact IH|done].
Qed.

Lemma lstrip_space_app ws s :
  Forall (λ c, isspace c = true) ws → lstrip (ws ++ s) = lstrip s.
Proof. intros Hws. by rewrite lstrip_app, lstrip_all_space. Qed.

Lemma rstrip_app_space s ws :
  Forall (λ c, isspace c = true) ws → rstrip (s ++ ws) = rstrip s.
Proof.
  intros Hws. unfold rstrip. rewrite reverse_app, lstrip_space_app; [done|].
  by apply Forall_reverse.
Qed.

Lemma strip_surrounded ws1 s ws2 :
  Forall (λ c, isspace c = true) ws1 → Forall (λ c, isspace c = true) ws2 →
  strip (ws1 ++ s ++ ws2) = strip s.
Proof.
  intros H1 H2. unfold strip. rewrite lstrip_space_app, lstrip_app by done.
  destruct (lstrip s) as [|c l] eqn:Hs.
  - by rewrite lstrip_all_space.
  - by rewrite rstrip_app_space.
Qed.

(** X5. White space added before or after a line of the input file does
    not change the pair read from it. *)
Theorem parse_line_ignores_outer_space ws1 line ws2 :
  Forall (λ c, isspace c = true) ws1 → Forall (λ c, isspace c = true) ws2 →
  strip (ws1 ++ line ++ ws2) = strip line
  ∧ parse_line (ws1 ++ line ++ ws2) = parse_line line.
Proof.
  intros H1 H2. pose proof (strip_surrounded ws1 line ws2 H1 H2) as Hs.
  split; [exact Hs|]. unfold parse_line. by rewrite Hs.
Qed.

Lemma parse_line_all_space line :
  Forall (λ c, isspace c = true) line → parse_line line = None.
Proof.
  intros Hl. unfold parse_line, strip. by rewrite lstrip_all_space.
Qed.

Lemma universal_newlines_bounded (P : N → Prop) n s :
  (length s ≤ n)%nat → P LF → Forall P (filter (λ c, c ≠ CR) s) →
  Forall P (universal_newlines s) ∧ CR ∉ universal_newlines s.
Proof.
  revert s. induction n as [|n IH]; intros s Hn HLF Hs.
  { destruct s; [|simpl in Hn; lia]. split; [constructor|apply not_elem_of_nil]. }
  destruct s as [|c s]; [split; [constructor|apply not_elem_of_nil]|].
  cbn [universal_newlines]. cbn [length] in Hn.
  rewrite filter_cons in Hs.
  destruct (N.eqb_spec c CR) as [->|Hc].
  - rewrite decide_False in Hs by (by intros H; apply H).
    destruct s as [|d s].
    + split; [by repeat constructor|].
      by intros [=]%list_elem_of_singleton.
    + destruct (N.eqb_spec d LF) as [->|Hd].
      * rewrite filter_cons, decide_True in Hs by done.
        apply Forall_cons in Hs as [_ Hs].
        destruct (IH s) as [HP HCR]; [cbn [length] in Hn; lia|done..|].
        split; [by constructor|]. apply not_elem_of_cons. by split.
      * destruct (IH (d :: s)) as [HP HCR]; [lia|done..|].
        split; [by constructor|]. apply not_elem_of_cons. by split.
  - rewrite decide_True in Hs by done. apply Forall_cons in Hs as [Hc' Hs].
    destruct (IH s) as [HP HCR]; [lia|done..|].
    split; [by constructor|]. apply not_elem_of_cons. by split.
Qed.

Lemma universal_newlines_no_CR s : CR ∉ universal_newlines s.
Proof.
  apply (universal_newlines_bounded (λ _, True) (length s) s); [lia|done|].
  apply Forall_forall. done.
Qed.

Lemma universal_newlines_space s :
  Forall (λ c, isspace c = true) s →
  Forall (λ c, isspace c = true) (universal_newlines s).
Proof.
  intros Hs.
  apply (universal_newlines_bounded (λ c, isspace c = true) (length s) s);
    [lia|done|].
  apply Forall_forall. intros c [_ Hc]%list_elem_of_filter.
  by apply (proj1 (Forall_forall _ _) Hs).
Qed.

Lemma readlines_chars s l c : l ∈ readlines s → c ∈ l → c ∈ s.
Proof.
  revert l. induction s as [|d s IH]; intros l; simpl.
  { by intros ?%elem_of_nil. }
  destruct (N.eqb_spec d LF) as [->|Hd].
  - intros [->|Hl]%elem_of_cons.
    + intros ->%list_elem_of_singleton. apply list_elem_of_here.
    + intros Hc. apply list_elem_of_further. by apply (IH l).
  - destruct (readlines s) as [|l0 ls] eqn:Hr.
    + intros ->%list_elem_of_singleton ->%list_elem_of_singleton.
      apply list_elem_of_here.
    + intros [->|Hl]%elem_of_cons.
      * intros [->|Hc]%elem_of_cons; [apply list_elem_of_here|].
        apply list_elem_of_further, (IH l0); [apply list_elem_of_here|done].
      * intros Hc. apply list_elem_of_further, (IH l); [|done].
        by apply list_elem_of_further.
Qed.

(** A line feed is the last character of its line. *)
Lemma readlines_LF_last s l pre post :
  l ∈ readlines s → l = pre ++ LF :: post → post = [].
Proof.
  revert l pre. induction s as [|d s IH]; intros l pre; simpl.
  { by intros ?%elem_of_nil. }
  destruct (N.eqb_spec d LF) as [->|Hd].
  - intros [->|Hl]%elem_of_cons; [|by apply IH].
    destruct pre as [|? [|? ?]]; intros [=]; done.
  - destruct (readlines s) as [|l0 ls] eqn:Hr.
    + intros ->%list_elem_of_singleton.
      destruct pre as [|? [|? ?]]; intros [=]; congruence.
    + intros [->|Hl]%elem_of_cons.
      * destruct pre as [|c pre]; intros [=]; [congruence|].
        apply (IH l0 pre); [apply list_elem_of_here|done].
      * apply IH. by apply list_elem_of_further.
Qed.

Lemma elem_of_join sep parts p c : p ∈ parts → c ∈ p → c ∈ join sep parts.
Proof.
  induction parts as [|q parts IH]; [by intros ?%elem_of_nil|].
  intros Hp Hc. cbn [join]. destruct parts as [|q' parts].
  - apply list_elem_of_singleton in Hp as ->. done.
  - apply elem_of_app. apply elem_of_cons in Hp as [->|Hp]; [by left|].
    right. apply list_elem_of_further. by apply IH.
Qed.

Lemma parse_line_well_formed line id label :
  parse_line line = Some (id, label) →
  id ≠ []
  ∧ (∀ c, head id = Some c → isspace c = false)
  ∧ (TAB ∉ id) ∧ (TAB ∉ label)
  ∧ (∀ c, c ∈ id ∨ c ∈ label → c ∈ strip line).
Proof.
  unfold parse_line.
  destruct (strip_spec line) as (ws1 & ws2 & _ & _ & _ & Hhead & _).
  destruct (join_split TAB (strip line)) as [Hjoin Hno].
  destruct (strip line) as [|c0 s] eqn:Hs; [done|].
  destruct (split TAB (c0 :: s)) as [|p0 [|p1 rest]]; [done| |].
  - intros [= <- <-]. cbn [join] in Hjoin. subst p0.
    apply Forall_cons in Hno as [Hno _].
    repeat split; try done. by intros c [?|?].
  - intros [= <- <-].
    apply Forall_cons in Hno as [Hno0 Hno].
    apply Forall_cons in Hno as [Hno1 _].
    change (join TAB (p0 :: p1 :: rest))
      with (p0 ++ TAB :: join TAB (p1 :: rest)) in Hjoin.
    assert (p0 ≠ []) as Hp0.
    { intros ->. cbn [app] in Hjoin. injection Hjoin as <- _.
      by specialize (Hhead TAB eq_refl). }
    repeat split; try done.
    + intros c Hc. apply Hhead. destruct p0 as [|c' p0]; [done|].
      cbn [app] in Hjoin. injection Hjoin as <- _. exact Hc.
    + intros c [Hc|Hc]; rewrite <- Hjoin; apply elem_of_app.
      * by left.
      * right. apply list_elem_of_further.
        apply (elem_of_join TAB (p1 :: rest) p1); [apply list_elem_of_here|done].
Qed.

Lemma strip_chars line c : c ∈ strip line → c ∈ line.
Proof.
  destruct (strip_spec line) as (ws1 & ws2 & Hl & _).
  intros Hc. rewrite Hl, !elem_of_app. right. by left.
Qed.

Lemma strip_no_inner_LF line :
  (∀ pre post, line = pre ++ LF :: post → post = []) → LF ∉ strip line.
Proof.
  intros Hlast Hin.
  destruct (strip_spec line) as (ws1 & ws2 & Hl & _ & _ & _ & Hend).
  apply list_elem_of_split in Hin as (a & b & Hs).
  rewrite Hs in Hl, Hend.
  assert (b ++ ws2 = []) as Hb.
  { apply (Hlast (ws1 ++ a)). rewrite Hl. by rewrite <- !app_assoc. }
  apply app_eq_nil in Hb as [-> _].
  by specialize (Hend LF (last_snoc _ _)).
Qed.

(** X6. Every pair read from an input file has an identifier that is not
    empty and does not start with white space, and neither its identifier
    nor its label holds a tab, a line feed or a carriage return. *)
Theorem file_targets_are_well_formed fs filename t pairs id label :
  read_orgs_from_file fs filename = (t, Ret pairs) →
  (id, label) ∈ pairs →
  id ≠ []
  ∧ (∀ c, head id = Some c → isspace c = false)
  ∧ (TAB ∉ id) ∧ (LF ∉ id) ∧ (CR ∉ id)
  ∧ (TAB ∉ label) ∧ (LF ∉ label) ∧ (CR ∉ label).
Proof.
  unfold read_orgs_from_file. destruct (fs filename) as [text|]; [|done].
  intros [= _ <-] (line & Hline & Hparse)%list_elem_of_omap.
  destruct (parse_line_well_formed _ _ _ Hparse)
    as (Hne & Hhead & Htab1 & Htab2 & Hchars).
  assert (LF ∉ strip line) as HLF.
  { apply strip_no_inner_LF. intros pre post.
    by apply (readlines_LF_last (universal_newlines text)). }
  assert (CR ∉ strip line) as HCR.
  { intros Hin%strip_chars.
    by apply (universal_newlines_no_CR text), (readlines_chars _ line). }
  split; [done|]. split; [done|]. split; [done|].
  split; [intros Hin; apply HLF, Hchars; by left|].
  split; [intros Hin; apply HCR, Hchars; by left|].
  split; [done|].
  split; intros Hin; [apply HLF, Hchars|apply HCR, Hchars]; by right.
Qed.

(** X7. With a file path on the command line, a file that does not exist
    ends the command with the message that it was not found, and a file
    with nothing but white space (an empty one too) ends it with "No
    organizations specified": one line, exit status 1, no request, whatever
    positional identifiers were given. *)
Theorem unusable_file_ends_the_command fuel srv fs args filename :
  truthy (file args) = Some filename →
  (fs filename = None →
   main fuel srv fs args = ([EvPrint (LFileNotFound filename)], Exit 1))
  ∧ (∀ text, fs filename = Some text →
       Forall (λ c, isspace c = true) text →
       main fuel srv fs args = ([EvPrint LNoOrganizations], Exit 1)).
Proof.
  intros Hfile. unfold main, resolve_input, read_orgs_from_file.
  rewrite Hfile. split.
  - by intros ->.
  - intros text -> Hspace.
    assert (omap parse_line (readlines (universal_newlines text)) = []) as ->;
      [|done].
    apply universal_newlines_space in Hspace.
    assert (∀ l, l ∈ readlines (universal_newlines text) →
                 parse_line l = None) as Hnone.
    { intros l Hl. apply parse_line_all_space, Forall_forall. intros c Hc.
      apply (proj1 (Forall_forall _ _) Hspace). by apply (readlines_chars _ l). }
    induction (readlines (universal_newlines text)) as [|l ls IH]; [done|].
    cbn [omap list_omap]. rewrite (Hnone l) by apply list_elem_of_here.
    apply IH. intros l' Hl'. apply Hnone. by apply list_elem_of_further.
Qed.

(** ** More on the aggregation and the report *)

Lemma dict_get_None d k : dict_get d k = None ↔ k ∉ d.*1.
Proof.
  induction d as [|[k0 v0] d IH]; simpl.
  - split; [intros _; apply not_elem_of_nil|done].
  - rewrite not_elem_of_cons. destruct (decide (k0 = k)) as [->|Hk].
    + split; [done|]. by intros [? _].
    + rewrite IH. split; [by intros ?; split|by intros [_ ?]].
Qed.

Lemma keys_dict_alter f k d : (dict_alter f k d).*1 = d.*1.
Proof.
  induction d as [|[k0 v0] d IH]; simpl; [done|].
  destruct (decide (k0 = k)); simpl; [done|]. by f_equal.
Qed.

Lemma keys_step d k c :
  (dict_add (dict_setdefault d k) k c).*1 =
  if decide (k ∈ d.*1) then d.*1 else d.*1 ++ [k].
Proof.
  unfold dict_add. rewrite !keys_dict_alter. unfold dict_setdefault.
  destruct (dict_get d k) as [v|] eqn:Hd.
  - rewrite decide_True; [done|].
    destruct (decide (k ∈ d.*1)) as [|Hn]; [done|].
    apply dict_get_None in Hn. congruence.
  - apply dict_get_None in Hd. rewrite decide_False by done.
    by rewrite fmap_app.
Qed.

Lemma keys_aggregate fetched d :
  (aggregate fetched d).*1 = first_seen d.*1 fetched.*1.
Proof.
  revert d. induction fetched as [|[l c] fetched IH]; intros d; [done|].
  cbn [aggregate]. rewrite IH, keys_step. reflexivity.
Qed.

Lemma first_seen_NoDup seen l : NoDup seen → NoDup (first_seen seen l).
Proof.
  revert seen. induction l as [|x l IH]; intros seen Hnd; [done|].
  cbn [first_seen]. apply IH. case_decide; [done|].
  apply NoDup_app. split; [done|]. split.
  - by intros y Hy ->%list_elem_of_singleton.
  - apply NoDup_singleton.
Qed.

Lemma elem_of_first_seen seen l x : x ∈ first_seen seen l ↔ x ∈ seen ∨ x ∈ l.
Proof.
  revert seen. induction l as [|y l IH]; intros seen; cbn [first_seen].
  - rewrite elem_of_nil. tauto.
  - rewrite IH, elem_of_cons. case_decide as Hy.
    + split; [tauto|]. intros [?|[->|?]]; auto.
    + rewrite elem_of_app, list_elem_of_singleton. tauto.
Qed.

Lemma fetch_all_labels fuel srv tok org_data :
  (fetch_all fuel srv tok org_data).*1 = org_data.*2.
Proof.
  unfold fetch_all. rewrite <- list_fmap_compose. by apply list_fmap_ext.
Qed.

(** X8. When the fetches return, the dict the loop of [main] builds has one
    entry per distinct display label, in the order in which the labels
    first appear among the targets; the rows of the report carry the same
    labels, and they are the table [main] prints: a label is never shown
    twice. *)
Theorem one_row_per_label fuel srv tok (org_data : list (str * str)) :
  Forall (λ target, fetch_returns fuel srv tok target.1) org_data →
  ∃ ds,
    result (main_loop fuel srv tok org_data []) = Ret ds
    ∧ ds.*1 = first_seen [] org_data.*2
    ∧ NoDup ds.*1
    ∧ (∀ label, label ∈ ds.*1 ↔ label ∈ org_data.*2)
    ∧ (∃ rows total_repos total_stars,
         rows.*1 ≡ₚ ds.*1
         ∧ trace (report ds) =
           [EvPrint LHeader; EvPrint LRule] ++ (row_line <$> rows)
           ++ [EvPrint LRule; EvPrint (LTotal total_repos total_stars)])
    ∧ (∀ fs args orgs,
         token args = tok →
         result (resolve_input fs args) = Ret (org_data, orgs) →
         org_data ≠ [] →
         main fuel srv fs args =
         (fetch_traces fuel srv tok org_data ++ trace (report ds), Ret tt)).
Proof.
  intros Hall. exists (aggregate (fetch_all fuel srv tok org_data) []).
  assert ((aggregate (fetch_all fuel srv tok org_data) []).*1 =
          first_seen [] org_data.*2) as Hk
    by (by rewrite keys_aggregate, fetch_all_labels).
  split; [by rewrite main_loop_aggregate|].
  split; [exact Hk|]. rewrite Hk. split; [|split; [|split]].
  - apply first_seen_NoDup, NoDup_nil_2.
  - intros label. rewrite elem_of_first_seen, elem_of_nil. tauto.
  - destruct (report_lines (aggregate (fetch_all fuel srv tok org_data) []))
      as [-> Hperm].
    eexists _, _, _. split; [|reflexivity].
    rewrite <- Hk. by apply fmap_Permutation.
  - intros fs args orgs <- Hres Hne.
    by apply (main_runs fuel srv fs args org_data orgs).
Qed.

Lemma filter_insert_reverse k x l :
  filter (λ y, sort_key y = k) (insert_reverse x l) =
  filter (λ y, sort_key y = k) (x :: l).
Proof.
  induction l as [|y l IH]; [reflexivity|]. cbn [insert_reverse].
  destruct (tuple_lt (sort_key x) (sort_key y)) eqn:Hlt; [|done].
  rewrite (filter_cons _ y), IH, !(filter_cons _ x), (filter_cons _ y).
  destruct (decide (sort_key x = k)) as [Hx|_]; [|done].
  destruct (decide (sort_key y = k)) as [Hy|_]; [exfalso|done].
  rewrite Hx, Hy in Hlt. apply tuple_lt_true in Hlt. lia.
Qed.

(** X9. The sort is stable: the rows that have the same stars and the same
    repositories keep the order they had in the dict. *)
Theorem sorting_keeps_the_order_of_ties (items : Dict) (k : Z * Z) :
  filter (λ x, sort_key x = k) (sorted_reverse items) =
  filter (λ x, sort_key x = k) items.
Proof.
  induction items as [|x items IH]; [reflexivity|].
  cbn [sorted_reverse foldr]. fold (sorted_reverse items).
  rewrite filter_insert_reverse, !(filter_cons _ x), IH. reflexivity.
Qed.

Lemma column_sum_cons g k v d :
  column_sum g ((k, v) :: d) = g v + column_sum g d.
Proof. reflexivity. Qed.

Lemma column_sum_snoc g d k v :
  column_sum g (d ++ [(k, v)]) = column_sum g d + g v.
Proof.
  induction d as [|[k0 v0] d IH].
  - unfold column_sum. simpl. lia.
  - cbn [app]. rewrite !column_sum_cons, IH. lia.
Qed.

Lemma column_sum_perm g d d' : d ≡ₚ d' → column_sum g d = column_sum g d'.
Proof. intros Hp. unfold column_sum. apply sum_perm. by rewrite Hp. Qed.

Lemma column_sum_alter g f k d n :
  (∀ v, g (f v) = g v + n) → k ∈ d.*1 →
  column_sum g (dict_alter f k d) = column_sum g d + n.
Proof.
  intros Hf. induction d as [|[k0 v0] d IH]; [by intros ?%elem_of_nil|].
  cbn [dict_alter fmap list_fmap fst]. intros Hk.
  destruct (decide (k0 = k)) as [->|Hne].
  - rewrite !column_sum_cons, Hf. lia.
  - apply elem_of_cons in Hk as [->|Hk]; [done|].
    rewrite !column_sum_cons, IH by done. lia.
Qed.

Lemma setdefault_key d k : k ∈ (dict_setdefault d k).*1.
Proof.
  unfold dict_setdefault. destruct (dict_get d k) eqn:Hd.
  - destruct (decide (k ∈ d.*1)) as [|Hn]; [done|].
    apply dict_get_None in Hn. congruence.
  - rewrite fmap_app, elem_of_app. right. apply list_elem_of_here.
Qed.

Lemma column_sum_setdefault g d k :
  g zero_stats = 0 → column_sum g (dict_setdefault d k) = column_sum g d.
Proof.
  intros Hz. unfold dict_setdefault. destruct (dict_get d k); [done|].
  rewrite column_sum_snoc. fold zero_stats. lia.
Qed.

Lemma column_sum_step d k c :
  column_sum repos (dict_add (dict_setdefault d k) k c) = column_sum repos d + c.1
  ∧ column_sum stars (dict_add (dict_setdefault d k) k c) = column_sum stars d + c.2.
Proof.
  unfold dict_add. split.
  - rewrite (column_sum_alter repos _ _ _ 0),
      (column_sum_alter repos _ _ _ c.1), column_sum_setdefault; try done.
    + lia.
    + apply setdefault_key.
    + intros v. simpl. lia.
    + rewrite keys_dict_alter. apply setdefault_key.
  - rewrite (column_sum_alter stars _ _ _ c.2),
      (column_sum_alter stars _ _ _ 0), column_sum_setdefault; try done.
    + lia.
    + intros v. simpl. lia.
    + apply setdefault_key.
    + rewrite keys_dict_alter. apply setdefault_key.
Qed.

Lemma column_sum_aggregate fetched d :
  column_sum repos (aggregate fetched d) =
    column_sum repos d + foldr Z.add 0 fetched.*2.*1
  ∧ column_sum stars (aggregate fetched d) =
    column_sum stars d + foldr Z.add 0 fetched.*2.*2.
Proof.
  revert d. induction fetched as [|[l c] fetched IH]; intros d.
  - cbn [aggregate fmap list_fmap foldr]. lia.
  - cbn [aggregate]. destruct (IH (dict_add (dict_setdefault d l) l c)) as [-> ->].
    destruct (column_sum_step d l c) as [-> ->].
    rewrite !fmap_cons. cbn [foldr fst snd]. lia.
Qed.

(** X10. When the input is resolved and every fetch returns, the command
    returns (status 0) and its events are: those of the fetches of the
    targets in input order, then the header, a rule, the sorted rows, a rule
    and the totals line, whose numbers are the sums of the counts fetched
    for all targets, a target listed twice being counted twice. *)
Theorem command_output fuel srv fs args org_data orgs :
  result (resolve_input fs args) = Ret (org_data, orgs) →
  org_data ≠ [] →
  Forall (λ target, fetch_returns fuel srv (token args) target.1) org_data →
  let fetched := fetch_all fuel srv (token args) org_data in
  main fuel srv fs args =
  (fetch_traces fuel srv (token args) org_data
   ++ [EvPrint LHeader; EvPrint LRule]
   ++ (row_line <$> sorted_reverse (aggregate fetched []))
   ++ [EvPrint LRule;
       EvPrint (LTotal (foldr Z.add 0 fetched.*2.*1)
                       (foldr Z.add 0 fetched.*2.*2))],
   Ret tt).
Proof.
  intros Hres Hne Hall fetched.
  rewrite (main_runs fuel srv fs args org_data orgs) by done. fold fetched.
  destruct (report_lines (aggregate fetched [])) as [-> Hperm].
  unfold trace; cbn [fst].
  destruct (column_sum_aggregate fetched []) as [Hr Hs].
  rewrite <- (column_sum_perm repos _ _ Hperm) in Hr.
  rewrite <- (column_sum_perm stars _ _ Hperm) in Hs.
  unfold column_sum in Hr, Hs. rewrite Hr, Hs. cbn [fmap list_fmap foldr].
  reflexivity.
Qed.

Lemma counts_for_positional fuel srv tok o (orgs : list str) :
  counts_for o (fetch_all fuel srv tok ((λ org, (org, org)) <$> orgs)) =
  replicate (length (filter (λ org, org = o) orgs))
    (default (0, 0) (fetched_counts fuel srv tok o)).
Proof.
  unfold counts_for, fetch_all. induction orgs as [|x orgs IH]; [done|].
  rewrite !fmap_cons, !filter_cons. cbn [fst snd].
  destruct (decide (x = o)) as [->|_]; [|exact IH].
  rewrite fmap_cons. cbn [length replicate snd]. by rewrite IH.
Qed.

Lemma total_of_replicate n r s :
  total_of (replicate n (r, s)) =
  {| repos := Z.of_nat n * r; stars := Z.of_nat n * s |}.
Proof.
  unfold total_of. induction n as [|n IH]; [done|].
  cbn [replicate]. rewrite !fmap_cons. cbn [foldr fst snd].
  injection IH as -> ->. f_equal; lia.
Qed.

Lemma repeated_identifier_row fuel srv fs args o r s :
  truthy (file args) = None →
  Forall (λ org, fetch_returns fuel srv (token args) org) (organizations args) →
  o ∈ organizations args →
  fetched_counts fuel srv (token args) o = Some (r, s) →
  let n := Z.of_nat (length (filter (λ org, org = o) (organizations args))) in
  result (main fuel srv fs args) = Ret tt
  ∧ EvPrint (LRow o (n * r) (n * s)) ∈ trace (main fuel srv fs args).
Proof.
  intros Hfile Hall Ho Hfetch n.
  assert (result (resolve_input fs args) =
          Ret ((λ org, (org, org)) <$> organizations args, organizations args))
    as Hres.
  { unfold resolve_input. rewrite Hfile.
    destruct (organizations args); [by apply elem_of_nil in Ho|done]. }
  rewrite (main_runs fuel srv fs args _ _ Hres).
  - split; [done|]. unfold trace at 1; cbn [fst]. apply elem_of_app. right.
    apply (report_prints_row _ (o, {| repos := n * r; stars := n * s |})).
    apply dict_get_elem. rewrite dict_get_aggregate, counts_for_positional.
    rewrite Hfetch. cbn [default]. subst n.
    destruct (length (filter (λ org, org = o) (organizations args)))
      as [|cnt] eqn:Hcnt.
    + exfalso.
      assert (o ∈ filter (λ org, org = o) (organizations args)) as Hin
        by (by apply list_elem_of_filter).
      apply length_zero_iff_nil in Hcnt. rewrite Hcnt in Hin.
      by apply elem_of_nil in Hin.
    + change (id (r, s)) with (r, s). rewrite total_of_replicate.
      cbn [replicate dict_get default zero_stats repos stars].
      by rewrite !Z.add_0_l.
  - destruct (organizations args); [by apply elem_of_nil in Ho|done].
  - by apply Forall_fmap.
Qed.

Lemma org_request_inj x o tok p q :
  org_request x tok p = org_request o tok q → x = o ∧ p = q.
Proof.
  unfold org_request. intros [= Hurl Hp]. split; [|done].
  by apply app_inv_tail in Hurl.
Qed.

Lemma user_request_ne x o tok p q : user_request x tok p ≠ org_request o tok q.
Proof.
  unfold user_request, org_request. intros H. discriminate H.
Qed.

Lemma filter_page_requests_none r0 req p k :
  (∀ i : nat, req (p + Z.of_nat i) ≠ r0) →
  filter (λ e, e = EvGet r0) (page_requests req p k) = [].
Proof.
  intros Hne. unfold page_requests.
  induction (seq 0 k) as [|i l IH]; [done|].
  rewrite fmap_cons, filter_cons, decide_False; [done|].
  intros [= H]. by apply (Hne i).
Qed.

Lemma filter_diag r0 (diag : list event) :
  (diag = [] ∨ ∃ l, diag = [EvPrint l]) →
  filter (λ e, e = EvGet r0) diag = [].
Proof. by intros [->|(l & ->)]. Qed.

Lemma fetch_first_request fuel srv tok x o :
  fetch_returns fuel srv tok x →
  filter (λ e, e = EvGet (org_request o tok 1))
    (trace (get_org_stats fuel srv x tok)) =
  if decide (x = o) then [EvGet (org_request o tok 1)] else [].
Proof.
  destruct fuel as [|fuel].
  { intros Hret. by apply is_Some_None in Hret. }
  intros _. unfold get_org_stats. rewrite org_loop_S, trace_prepend.
  rewrite filter_app.
  assert (filter (λ e, e = EvGet (org_request o tok 1))
            [EvGet (org_request x tok 1)] =
          if decide (x = o) then [EvGet (org_request o tok 1)] else []) as ->.
  { rewrite filter_cons. destruct (decide (x = o)) as [->|Hne].
    - by rewrite decide_True.
    - rewrite decide_False; [done|].
      intros Heq.
      assert (org_request x tok 1 = org_request o tok 1) as Hr by congruence.
      by apply org_request_inj in Hr as [? _]. }
  match goal with
  | |- _ ++ ?rest = _ => assert (rest = []) as ->; [|by rewrite app_nil_r]
  end.
  cbn zeta.
  destruct (status_code (srv (org_request x tok 1)) =? 404).
  { destruct (user_loop_shape srv x tok fuel 1 0 0) as (j & diag & Ht & _ & Hd).
    unfold get_user_stats. rewrite Ht, filter_app.
    rewrite filter_page_requests_none by (intros i; apply user_request_ne).
    apply filter_diag. destruct Hd as [?|(l & ? & _)]; eauto. }
  destruct (negb (status_code (srv (org_request x tok 1)) =? 200)); [done|].
  destruct (json (srv (org_request x tok 1))) as [|r0 repos]; [done|].
  destruct (org_loop_shape srv x tok fuel (1 + 1) (0 + len (r0 :: repos))
              (0 + sum_stars (r0 :: repos)))
    as (k & j & diag & Ht & _ & Hd & _).
  rewrite Ht, !filter_app.
  rewrite filter_page_requests_none.
  2:{ intros i [_ Hp]%org_request_inj. lia. }
  rewrite filter_page_requests_none by (intros i; apply user_request_ne).
  apply filter_diag. destruct Hd as [?|(l & ? & _)]; eauto.
Qed.

Lemma fetch_traces_cons fuel srv tok target org_data :
  fetch_traces fuel srv tok (target :: org_data) =
  trace (get_org_stats fuel srv target.1 tok)
  ++ fetch_traces fuel srv tok org_data.
Proof. reflexivity. Qed.

Lemma fetch_traces_first_requests fuel srv tok o (orgs : list str) :
  Forall (λ org, fetch_returns fuel srv tok org) orgs →
  length (filter (λ e, e = EvGet (org_request o tok 1))
            (fetch_traces fuel srv tok ((λ org, (org, org)) <$> orgs))) =
  length (filter (λ org, org = o) orgs).
Proof.
  induction 1 as [|x orgs Hx _ IH]; [done|].
  rewrite fmap_cons, fetch_traces_cons. cbn [fst].
  rewrite filter_app, length_app, IH, (fetch_first_request _ _ _ _ _ Hx).
  rewrite filter_cons. by destruct (decide (x = o)).
Qed.

Lemma filter_report_requests r0 ds :
  filter (λ e, e = EvGet r0) (trace (report ds)) = [].
Proof.
  apply elem_of_nil_inv. intros e [-> Hin]%list_elem_of_filter.
  by apply report_no_request in Hin.
Qed.

(** X11. With positional identifiers, an identifier given n times is fetched
    n times (page 1 of its organization listing is requested n times) and
    its row shows n times its repository count and star total. *)
Theorem repeated_identifier_is_counted_again fuel srv fs args o r s :
  truthy (file args) = None →
  Forall (λ org, fetch_returns fuel srv (token args) org) (organizations args) →
  o ∈ organizations args →
  fetched_counts fuel srv (token args) o = Some (r, s) →
  let n := length (filter (λ org, org = o) (organizations args)) in
  result (main fuel srv fs args) = Ret tt
  ∧ length (filter (λ e, e = EvGet (org_request o (token args) 1))
              (trace (main fuel srv fs args))) = n
  ∧ EvPrint (LRow o (Z.of_nat n * r) (Z.of_nat n * s))
    ∈ trace (main fuel srv fs args).
Proof.
  intros Hfile Hall Ho Hfetch n.
  destruct (repeated_identifier_row fuel srv fs args o r s Hfile Hall Ho Hfetch)
    as [Hret Hrow].
  split; [exact Hret|]. split; [|exact Hrow].
  assert (result (resolve_input fs args) =
          Ret ((λ org, (org, org)) <$> organizations args, organizations args))
    as Hres.
  { unfold resolve_input. rewrite Hfile.
    destruct (organizations args); [by apply elem_of_nil in Ho|done]. }
  rewrite (main_runs fuel srv fs args _ _ Hres).
  - unfold trace at 1; cbn [fst].
    rewrite filter_app, filter_report_requests, app_nil_r.
    by apply fetch_traces_first_requests.
  - destruct (organizations args); [by apply elem_of_nil in Ho|done].
  - by apply Forall_fmap.
Qed.

(** ** The text of the lines *)

Lemma length_ljust width s : length (ljust width s) = (width `max` length s)%nat.
Proof. unfold ljust. rewrite length_app, length_replicate. lia. Qed.

(** X12. The text of a row starts with the whole label: a label longer
    than 20 characters is not cut, it makes the line longer. The line has
    the width of its three padded fields and two blanks, hence at least 52
    characters. *)
Theorem row_text_is_never_cut display_name r s :
  display_name `prefix_of` render (LRow display_name r s)
  ∧ length (render (LRow display_name r s)) =
    ((20 `max` length display_name) + 1
     + (15 `max` length (str_of_int r)) + 1
     + (15 `max` length (str_of_int s)))%nat
  ∧ (52 ≤ length (render (LRow display_name r s)))%nat.
Proof.
  assert (length (render (LRow display_name r s)) =
    ((20 `max` length display_name) + 1
     + (15 `max` length (str_of_int r)) + 1
     + (15 `max` length (str_of_int s)))%nat) as Hlen.
  { cbn [render]. rewrite !length_app, !length_ljust. cbn [length u]. 
    change (length (u " ")) with 1%nat. lia. }
  split; [|split; [exact Hlen|lia]].
  cbn [render]. unfold ljust. rewrite <- !app_assoc. by apply prefix_app_r.
Qed.

(** ** More properties on the mocked server *)

Lemma command_requests_witness :
  per_page (params (user_request (u "bob") None 1)) = 100
  ∧ ∀ v, (u "Authorization", v) ∈ headers (user_request (u "bob") None 1) ↔
         ∃ t, truthy None = Some t ∧ v = u "token " ++ t.
Proof.
  destruct (command_requests 3 demo_server demo_files
              {| organizations := [u "bob"]; file := None; token := None |}
              (user_request (u "bob") None 1))
    as (_ & Hper & _ & _ & Hauth).
  - apply (bool_decide_unpack _). vm_compute. exact I.
  - split; [exact Hper|exact Hauth].
Defined.

Lemma parse_line_ignores_outer_space_witness :
  parse_line ([32%N; TAB] ++ u "acme" ++ [CR; LF]) = parse_line (u "acme").
Proof.
  apply (parse_line_ignores_outer_space [32%N; TAB] (u "acme") [CR; LF]);
    repeat constructor.
Defined.

Lemma file_targets_are_well_formed_witness :
  u "ghost" ≠ []
  ∧ (∀ c, head (u "ghost") = Some c → isspace c = false)
  ∧ (TAB ∉ u "ghost") ∧ (LF ∉ u "ghost") ∧ (CR ∉ u "ghost")
  ∧ (TAB ∉ u "Acme") ∧ (LF ∉ u "Acme") ∧ (CR ∉ u "Acme").
Proof.
  apply (file_targets_are_well_formed demo_files (u "shared.tsv") []
           [(u "ghost", u "Acme"); (u "acme", u "Acme")]).
  - vm_compute. reflexivity.
  - apply list_elem_of_here.
Defined.

Lemma unusable_file_ends_the_command_witness :
  main 3 demo_server demo_files
    {| organizations := [u "acme"]; file := Some (u "missing.tsv");
       token := None |}
  = ([EvPrint (LFileNotFound (u "missing.tsv"))], Exit 1)
  ∧ main 3 demo_server (λ _, Some [32%N; LF; TAB; CR])
      {| organizations := [u "acme"]; file := Some (u "blank.tsv");
         token := None |}
    = ([EvPrint LNoOrganizations], Exit 1).
Proof.
  split.
  - apply (unusable_file_ends_the_command 3 demo_server demo_files
             {| organizations := [u "acme"]; file := Some (u "missing.tsv");
                token := None |} (u "missing.tsv")); reflexivity.
  - apply (proj2 (unusable_file_ends_the_command 3 demo_server
             (λ _, Some [32%N; LF; TAB; CR])
             {| organizations := [u "acme"]; file := Some (u "blank.tsv");
                token := None |} (u "blank.tsv") eq_refl)
             [32%N; LF; TAB; CR] eq_refl).
    repeat constructor.
Defined.

Lemma command_output_witness :
  main 3 demo_server demo_files
    {| organizations := [u "bob"; u "acme"]; file := None; token := None |}
  = (fetch_traces 3 demo_server None
       [(u "bob", u "bob"); (u "acme", u "acme")]
     ++ [EvPrint LHeader; EvPrint LRule;
         EvPrint (LRow (u "acme") 3 12); EvPrint (LRow (u "bob") 1 1);
         EvPrint LRule; EvPrint (LTotal 4 13)],
     Ret tt).
Proof.
  rewrite (command_output 3 demo_server demo_files
             {| organizations := [u "bob"; u "acme"]; file := None;
                token := None |}
             [(u "bob", u "bob"); (u "acme", u "acme")] [u "bob"; u "acme"]).
  - vm_compute. reflexivity.
  - reflexivity.
  - discriminate.
  - repeat constructor; vm_compute; eexists; reflexivity.
Defined.

Lemma repeated_identifier_is_counted_again_witness :
  length (filter (λ e, e = EvGet (org_request (u "acme") None 1))
            (trace (main 3 demo_server demo_files
                      {| organizations := [u "acme"; u "bob"; u "acme"];
                         file := None; token := None |}))) = 2%nat
  ∧ EvPrint (LRow (u "acme") 6 24)
    ∈ trace (main 3 demo_server demo_files
               {| organizations := [u "acme"; u "bob"; u "acme"];
                  file := None; token := None |}).
Proof.
  destruct (repeated_identifier_is_counted_again 3 demo_server demo_files
              {| organizations := [u "acme"; u "bob"; u "acme"];
                 file := None; token := None |} (u "acme") 3 12)
    as (_ & Hcount & Hrow).
  - reflexivity.
  - repeat constructor; vm_compute; eexists; reflexivity.
  - apply list_elem_of_here.
  - vm_compute. reflexivity.
  - split; [exact Hcount|exact Hrow].
Defined.

Lemma one_row_per_label_witness :
  ∃ ds,
    result (main_loop 3 demo_server None
              [(u "ghost", u "Acme"); (u "bob", u "bob");
               (u "acme", u "Acme")] []) = Ret ds
    ∧ ds.*1 = [u "Acme"; u "bob"].
Proof.
  destruct (one_row_per_label 3 demo_server None
              [(u "ghost", u "Acme"); (u "bob", u "bob");
               (u "acme", u "Acme")])
    as (ds & Hds & Hkeys & _).
  - repeat constructor; vm_compute; eexists; reflexivity.
  - exists ds. split; [exact Hds|]. rewrite Hkeys. vm_compute. reflexivity.
Defined.

Lemma fetch_never_returns_part_of_a_listing_witness :
  ((3, 12) = (0, 0)
   ∧ ∃ l, last (page_requests (org_request (u "acme") None) 1 3)
          = Some (EvPrint l))
  ∨ (∃ pages, serves demo_server (org_request (u "acme") None) pages
              ∧ (3, 12) = (len (concat pages), sum_stars (concat pages)))
  ∨ (∃ upages, serves demo_server (user_request (u "acme") None) upages
               ∧ (3, 12) = (len (concat upages), sum_stars (concat upages))).
Proof.
  apply (fetch_never_returns_part_of_a_listing demo_server (u "acme") None 3).
  vm_compute. reflexivity.
Defined.
